(** * A shallow embedding of the CodeBoard SwitchPrint bridge and FastText worker

    Sources:
    - backend/python_bridge/switchprint_service.py : the tiered detection
      orchestrator [analyze_text], the result normalisers
      [_convert_v2_1_2_result] and [_convert_legacy_result], the mock tier
      [_get_mock_result] and the in-memory FIFO cache;
    - backend/python_workers/fasttext_worker.py : the line-delimited worker,
      [detect_language], [_create_phrase] and the request loop [main].

    Conventions of the embedding.
    - Python [str] is [string]; [str.lower] is modelled on ASCII letters.
    - Python [int] is [Z]; list positions produced by [enumerate] are [nat].
    - Python floats that are only copied around (confidences, timings) are
      [Q]; no claim depends on float rounding.
    - Attributes read with [getattr(obj, name, default)] are [option]s:
      [None] means the attribute is absent and the default is used.
    - A Python exception is the [Exn] constructor of [outcome]; stateful code
      runs in a state-and-exception monad where an exception keeps the state
      changes made before it (Python does not roll back). *)

From Stdlib Require Import String Ascii List ZArith QArith Bool Lia DecimalString.
Import ListNotations.
Open Scope string_scope.

(* ------------------------------------------------------------------ *)
(** ** Python string helpers *)

Module PyStr.

(** [str.isspace] on one character (ASCII part: \t \n \v \f \r, the
    separators \x1c-\x1f and the space). *)
Definition is_space (c : ascii) : bool :=
  let n := nat_of_ascii c in
  ((9 <=? n) && (n <=? 13))%nat || ((28 <=? n) && (n <=? 32))%nat.

(** [str.split()] with no argument: maximal runs of non-space characters. *)
Fixpoint split_aux (s : string) (cur : string) : list string :=
  match s with
  | EmptyString => if String.eqb cur "" then [] else [cur]
  | String c s' =>
      if is_space c
      then (if String.eqb cur "" then [] else [cur]) ++ split_aux s' ""
      else split_aux s' (cur ++ String c EmptyString)
  end.

Definition split (s : string) : list string := split_aux s "".

(** [sep.join(l)] *)
Fixpoint join (sep : string) (l : list string) : string :=
  match l with
  | [] => ""
  | [x] => x
  | x :: l' => x ++ sep ++ join sep l'
  end.

Fixpoint lstrip (s : string) : string :=
  match s with
  | EmptyString => EmptyString
  | String c s' => if is_space c then lstrip s' else s
  end.

Fixpoint rev_str (s : string) (acc : string) : string :=
  match s with
  | EmptyString => acc
  | String c s' => rev_str s' (String c acc)
  end.

(** [str.strip()] *)
Definition strip (s : string) : string :=
  rev_str (lstrip (rev_str (lstrip s) EmptyString)) EmptyString.

(** [str.lower()] (ASCII letters). *)
Definition lower_char (c : ascii) : ascii :=
  let n := nat_of_ascii c in
  if ((65 <=? n) && (n <=? 90))%nat then ascii_of_nat (n + 32) else c.

Fixpoint lower (s : string) : string :=
  match s with
  | EmptyString => EmptyString
  | String c s' => String (lower_char c) (lower s')
  end.

(** [s.replace(old, new)]: every non-overlapping occurrence, left to right. *)
Fixpoint replace_fuel (fuel : nat) (old new s : string) : string :=
  match fuel with
  | O => s
  | S f =>
      match s with
      | EmptyString => EmptyString
      | String c s' =>
          if String.prefix old s
          then new ++ replace_fuel f old new
                        (substring (String.length old)
                                   (String.length s - String.length old) s)
          else String c (replace_fuel f old new s')
      end
  end.

Definition replace (old new s : string) : string :=
  if String.eqb old "" then s else replace_fuel (S (String.length s)) old new s.

(** [s[:n]] *)
Definition take (n : nat) (s : string) : string := substring 0 n s.

End PyStr.

(* ------------------------------------------------------------------ *)
(** ** The result data model ([SwitchPrintResult] and its dicts) *)

(** Python truthiness of a list. *)
Definition is_nil {A} (l : list A) : bool :=
  match l with [] => true | _ => false end.

(** A token dict: [{'word', 'lang', 'language', 'confidence'}]. *)
Record Token := mkToken {
  word : string;
  lang : string;
  language : string;
  tconfidence : Q
}.

(** The value of the Python expression [user_languages and X] where [X] is a
    bool: [None] or [[]] when [user_languages] is falsy, [X] otherwise. *)
Inductive PyVal :=
| PyNone
| PyList (l : list string)
| PyBool (b : bool).

Definition truthy (v : PyVal) : bool :=
  match v with
  | PyNone => false
  | PyList l => negb (is_nil l)
  | PyBool b => b
  end.

(** A phrase dict of the bridge service. *)
Record Phrase := mkPhrase {
  pwords : list string;
  ptext : string;
  planguage : string;
  pconfidence : Q;
  startIndex : Z;
  endIndex : Z;
  isUserLanguage : PyVal
}.

(** The [context_optimization] dict. *)
Record ContextOptimization := mkContextOptimization {
  text_type : string;
  optimal_window_size : Z;
  improvement_score : Q;
  context_enhanced_confidence : Q;
  optimization_applied : bool
}.

(** The [SwitchPrintResult] dataclass. *)
Record SwitchPrintResult := mkResult {
  tokens : list Token;
  phrases : list Phrase;
  switch_points : list Z;
  confidence : Q;
  user_language_match : bool;
  detected_languages : list string;
  processing_time_ms : Q;
  cache_hit : bool;
  calibrated_confidence : Q;
  reliability_score : Q;
  quality_assessment : string;
  calibration_method : string;
  context_optimization : option ContextOptimization;
  performance_mode : string;
  version : string
}.

(** Defaults of the dataclass fields and the module constant. *)
Definition default_calibrated_confidence : Q := 0.
Definition default_reliability_score : Q := 0.
Definition default_quality_assessment := "unknown".
Definition default_calibration_method := "none".
Definition default_performance_mode := "balanced".
Definition default_version := "2.1.2".

(** [SWITCHPRINT_VERSION] when the import of [codeswitch_ai] succeeded, the
    only situation in which the primary detector exists. *)
Definition SWITCHPRINT_VERSION := "2.1.2".

(** [result.cache_hit = True; result.processing_time_ms = t] *)
Definition mark_cache_hit (r : SwitchPrintResult) (t : Q) : SwitchPrintResult :=
  mkResult r.(tokens) r.(phrases) r.(switch_points) r.(confidence)
    r.(user_language_match) r.(detected_languages) t true
    r.(calibrated_confidence) r.(reliability_score) r.(quality_assessment)
    r.(calibration_method) r.(context_optimization) r.(performance_mode)
    r.(version).

(* ------------------------------------------------------------------ *)
(** ** The normalisers shared by both conversions *)

Definition mem_Z (x : Z) (l : list Z) : bool := existsb (Z.eqb x) l.

(** [lang = detected[0] if detected else 'unknown']; one token per word. *)
Definition assign_single (dl : list string) (conf : Q) (ws : list string)
  : list Token :=
  let l := match dl with [] => "unknown" | d :: _ => d end in
  map (fun w => mkToken w l l conf) ws.

(** The walk of [_convert_v2_1_2_result]:
    [if switch_points and i in switch_points:
       current_lang_idx = (current_lang_idx + 1) % len(detected_languages)]. *)
Fixpoint assign_cyclic (dl : list string) (sps : list Z) (conf : Q)
  (i idx : nat) (ws : list string) : list Token :=
  match ws with
  | [] => []
  | w :: ws' =>
      let idx' := if negb (is_nil sps) && mem_Z (Z.of_nat i) sps
                  then Nat.modulo (idx + 1) (length dl) else idx in
      let l := match dl with [] => "unknown" | _ => nth idx' dl "" end in
      mkToken w l l conf :: assign_cyclic dl sps conf (S i) idx' ws'
  end.

(** The walk of [_convert_legacy_result]:
    [if i in switch_points and current_lang_idx < len(detected_langs) - 1:
       current_lang_idx += 1], then
    [lang = detected_langs[idx] if idx < len(detected_langs) else detected_langs[0]]. *)
Fixpoint assign_clamp (dl : list string) (sps : list Z) (conf : Q)
  (i idx : nat) (ws : list string) : list Token :=
  match ws with
  | [] => []
  | w :: ws' =>
      let idx' := if mem_Z (Z.of_nat i) sps
                     && (Z.of_nat idx <? Z.of_nat (length dl) - 1)%Z
                  then S idx else idx in
      let l := if (idx' <? length dl)%nat then nth idx' dl ""
               else nth 0 dl "" in
      mkToken w l l conf :: assign_clamp dl sps conf (S i) idx' ws'
  end.

(** [user_languages and current_phrase['language'] in user_languages] *)
Definition is_user_language (ul : option (list string)) (l : string) : PyVal :=
  match ul with
  | None => PyNone
  | Some [] => PyList []
  | Some us => PyBool (existsb (String.eqb l) us)
  end.

(** [current_phrase.update({...})] when a phrase is closed. *)
Definition finalize_phrase (conf : Q) (ul : option (list string))
  (ws : list string) (l : string) (st : Z) : Phrase :=
  mkPhrase ws (PyStr.join " " ws) l conf st
    (st + Z.of_nat (length ws) - 1)%Z (is_user_language ul l).

(** The loop [for i in range(1, len(tokens))] of both conversions; the
    current phrase is its word list, language and start index. *)
Fixpoint group_loop (conf : Q) (ul : option (list string)) (i : nat)
  (rest : list Token) (ws : list string) (l : string) (st : Z) : list Phrase :=
  match rest with
  | [] => [finalize_phrase conf ul ws l st]
  | t :: rest' =>
      if String.eqb t.(lang) l
      then group_loop conf ul (S i) rest' (ws ++ [t.(word)]) l st
      else finalize_phrase conf ul ws l st
           :: group_loop conf ul (S i) rest' [t.(word)] t.(lang) (Z.of_nat i)
  end.

(** The phrase grouping, written out identically in [_convert_v2_1_2_result]
    and in [_convert_legacy_result]. *)
Definition group_phrases (conf : Q) (ul : option (list string))
  (toks : list Token) : list Phrase :=
  match toks with
  | [] => []
  | t0 :: rest => group_loop conf ul 1 rest [t0.(word)] t0.(lang) 0
  end.

(** [if user_languages and detected: any(ul.lower() in [dl.lower() ...] ...)] *)
Definition user_lang_match (ul : option (list string)) (dl : list string) : bool :=
  match ul, dl with
  | Some ((_ :: _) as us), _ :: _ =>
      existsb (fun u => existsb (String.eqb (PyStr.lower u))
                                (map PyStr.lower dl)) us
  | _, _ => false
  end.

(* ------------------------------------------------------------------ *)
(** ** The raw detector outputs and the two conversions *)

(** [getattr(obj, name, default)] *)
Definition getattr {A} (o : option A) (d : A) : A :=
  match o with Some a => a | None => d end.

(** The attributes of an [IntegratedResult] read by the primary conversion. *)
Record IntegratedResult := mkIntegratedResult {
  ir_original_confidence : option Q;
  ir_calibrated_confidence : option Q;
  ir_reliability_score : option Q;
  ir_quality_assessment : option string;
  ir_calibration_method : option string;
  ir_detected_languages : option (list string);
  ir_switch_points : option (list Z)
}.

(** The attributes of the context optimizer's result. *)
Record OptimizationResult := mkOptimizationResult {
  or_text_type : option string;
  or_optimal_window_size : option Z;
  or_improvement_score : option Q;
  or_context_enhanced_confidence : option Q;
  or_optimization_applied : option bool
}.

(** [_convert_v2_1_2_result]; [context_result] is passed to it but never
    read, so it is not an argument here; [elapsed] is
    [(time.time() - start_time) * 1000]. *)
Definition convert_v2_1_2_result (sp : IntegratedResult)
  (optimization_result : option OptimizationResult) (text : string)
  (user_languages : option (list string)) (elapsed : Q)
  (mode : string) : SwitchPrintResult :=
  let words := PyStr.split text in
  let original_confidence := getattr sp.(ir_original_confidence) (1 # 2) in
  let calibrated := getattr sp.(ir_calibrated_confidence) original_confidence in
  let reliability := getattr sp.(ir_reliability_score) 0 in
  let quality := getattr sp.(ir_quality_assessment) "unknown" in
  let method := getattr sp.(ir_calibration_method) "none" in
  let dl := getattr sp.(ir_detected_languages) ["unknown"] in
  let sps := getattr sp.(ir_switch_points) [] in
  let toks := if (1 <? length dl)%nat && negb (is_nil sps)
              then assign_cyclic dl sps calibrated 0 0 words
              else assign_single dl calibrated words in
  let phs := group_phrases calibrated user_languages toks in
  let co := match optimization_result with
            | None => None
            | Some o => Some (mkContextOptimization
                         (getattr o.(or_text_type) "unknown")
                         (getattr o.(or_optimal_window_size) 0%Z)
                         (getattr o.(or_improvement_score) 0)
                         (getattr o.(or_context_enhanced_confidence) calibrated)
                         (getattr o.(or_optimization_applied) false))
            end in
  mkResult toks phs sps original_confidence
    (user_lang_match user_languages dl) dl elapsed false
    calibrated reliability quality method co mode SWITCHPRINT_VERSION.

(** A legacy switch point: a list or tuple (its items), an [int], or
    anything else (dropped). *)
Inductive LegacySwitchPoint :=
| LSPSeq (items : list Z)
| LSPInt (n : Z)
| LSPOther.

(** The attributes of a legacy detector result; [lr_switch_points = None]
    when [hasattr(sp_result, 'switch_points')] is false. *)
Record LegacyResult := mkLegacyResult {
  lr_detected_languages : option (list string);
  lr_confidence : option Q;
  lr_switch_points : option (list LegacySwitchPoint)
}.

(** The loop [for sp in legacy_switch_points: ...]. *)
Fixpoint extract_switch_points (l : list LegacySwitchPoint) : list Z :=
  match l with
  | [] => []
  | LSPSeq (x :: _) :: l' => x :: extract_switch_points l'
  | LSPInt n :: l' => n :: extract_switch_points l'
  | _ :: l' => extract_switch_points l'
  end.

(** [_convert_legacy_result] *)
Definition convert_legacy_result (sp : LegacyResult) (text : string)
  (user_languages : option (list string)) (elapsed : Q) : SwitchPrintResult :=
  let words := PyStr.split text in
  let dl := getattr sp.(lr_detected_languages) ["unknown"] in
  let conf := getattr sp.(lr_confidence) (1 # 2) in
  let sps := match sp.(lr_switch_points) with
             | Some l => extract_switch_points l
             | None => []
             end in
  let toks := if (1 <? length dl)%nat && negb (is_nil sps)
              then assign_clamp dl sps conf 0 0 words
              else assign_single dl conf words in
  let phs := group_phrases conf user_languages toks in
  mkResult toks phs sps conf (user_lang_match user_languages dl) dl elapsed
    false conf 0 "legacy" "none" None "legacy" "legacy".

(** [_get_mock_result]; the [error] argument is accepted as in the source. *)
Definition get_mock_result (text : string) (user_languages : option (list string))
  (elapsed : Q) (error : option string) : SwitchPrintResult :=
  let words := PyStr.split text in
  let mock_lang := match user_languages with
                   | Some (u :: _) => u
                   | _ => "english"
                   end in
  mkResult (map (fun w => mkToken w mock_lang mock_lang (85 # 100)) words)
    [mkPhrase words text mock_lang (85 # 100) 0
       (Z.of_nat (length words) - 1) (PyBool true)]
    [] (85 # 100) true [mock_lang] elapsed false
    default_calibrated_confidence default_reliability_score
    default_quality_assessment default_calibration_method None
    default_performance_mode default_version.

(* ------------------------------------------------------------------ *)
(** ** Exceptions and the service state *)

(** The result of a Python call: a value or a raised exception. *)
Inductive outcome (A : Type) :=
| Ok (a : A)
| Exn (msg : string).
Arguments Ok {A} a.
Arguments Exn {A} msg.

(** A Python dict with string keys, in insertion order. *)
Definition Dict (V : Type) := list (string * V).

(** [d.get(k)] *)
Fixpoint dict_get {V} (k : string) (d : Dict V) : option V :=
  match d with
  | [] => None
  | (k', v) :: d' => if String.eqb k k' then Some v else dict_get k d'
  end.

(** [d[k] = v]: an existing key keeps its position, a new one goes last. *)
Fixpoint dict_set {V} (k : string) (v : V) (d : Dict V) : Dict V :=
  match d with
  | [] => [(k, v)]
  | (k', v') :: d' =>
      if String.eqb k k' then (k', v) :: d' else (k', v') :: dict_set k v d'
  end.

(** [del d[k]]: [None] is the [KeyError] of a missing key. *)
Fixpoint dict_del {V} (k : string) (d : Dict V) : option (Dict V) :=
  match d with
  | [] => None
  | (k', v') :: d' =>
      if String.eqb k k' then Some d'
      else match dict_del k d' with
           | Some d'' => Some ((k', v') :: d'')
           | None => None
           end
  end.

(** The fields of [SwitchPrintService] that change after construction. *)
Record Service := mkService {
  cache : Dict SwitchPrintResult;
  cache_hits : nat;
  total_requests : nat
}.

Definition init_service : Service := mkService [] 0 0.

(** Stateful code: a state monad with exceptions; the state reached when an
    exception is raised is kept. *)
Definition M (A : Type) := Service -> outcome A * Service.

Definition ret {A} (a : A) : M A := fun s => (Ok a, s).

Definition bind {A B} (m : M A) (k : A -> M B) : M B :=
  fun s => match m s with
           | (Ok a, s') => k a s'
           | (Exn e, s') => (Exn e, s')
           end.

Notation "x <- m ;; k" := (bind m (fun x => k))
  (at level 61, m at next level, right associativity).
Notation "m ;;; k" := (bind m (fun _ => k))
  (at level 61, right associativity).

(** [raise] the exception of a call, or return its value. *)
Definition lift {A} (o : outcome A) : M A := fun s => (o, s).

(** [try: m except Exception as e: h(e)] *)
Definition catch {A} (m : M A) (h : string -> M A) : M A :=
  fun s => match m s with
           | (Ok a, s') => (Ok a, s')
           | (Exn e, s') => h e s'
           end.

Definition get : M Service := fun s => (Ok s, s).
Definition put (s : Service) : M unit := fun _ => (Ok tt, s).

(** [del self.cache[k]] *)
Definition cache_del (k : string) : M unit :=
  fun s => match dict_del k s.(cache) with
           | Some c => (Ok tt, mkService c s.(cache_hits) s.(total_requests))
           | None => (Exn "KeyError", s)
           end.

(** [for key in keys: del self.cache[key]] *)
Fixpoint cache_del_all (keys : list string) : M unit :=
  match keys with
  | [] => ret tt
  | k :: ks => cache_del k ;;; cache_del_all ks
  end.

Definition CACHE_CEILING := 1000%nat.
Definition CACHE_EVICT := 100%nat.

(** The store of [analyze_text]:
    [self.cache[cache_key] = result; if len(self.cache) > 1000:
       oldest_keys = list(self.cache.keys())[:100]; for key in oldest_keys: del ...] *)
Definition cache_store (k : string) (r : SwitchPrintResult) : M unit :=
  s <- get ;;
  let c := dict_set k r s.(cache) in
  put (mkService c s.(cache_hits) s.(total_requests)) ;;;
  if (CACHE_CEILING <? length c)%nat
  then cache_del_all (map fst (firstn CACHE_EVICT c))
  else ret tt.

(** [f"v2.1.2:{text}:{','.join(user_languages or [])}:{performance_mode}"] *)
Definition cache_key (text : string) (user_languages : option (list string))
  (mode : string) : string :=
  "v2.1.2:" ++ text ++ ":" ++ PyStr.join "," (getattr user_languages [])
  ++ ":" ++ mode.

(** What the detector objects do on this call: [None] when the attribute
    is [None] (component not available), otherwise the call's outcome. *)
Record Detectors := mkDetectors {
  integrated_detector : option (outcome IntegratedResult);
  context_detector : option (outcome unit);
  context_optimizer : option (outcome OptimizationResult);
  metrics_dashboard : option (outcome unit);
  legacy_detector : option (outcome LegacyResult);
  fasttext_detector : option (outcome LegacyResult)
}.

(** An enrichment stage: [x = None; if self.stage: try: x = self.stage(...)
    except Exception: logger.warning(...)]. *)
Definition enrich {A} (stage : option (outcome A)) : M (option A) :=
  match stage with
  | None => ret None
  | Some o => catch (a <- lift o ;; ret (Some a)) (fun _ => ret None)
  end.

(** [_fallback_analysis] *)
Definition fallback_analysis (D : Detectors) (elapsed : Q) (text : string)
  (user_languages : option (list string)) (fast_mode : bool)
  : M SwitchPrintResult :=
  match D.(legacy_detector) with
  | None => ret (get_mock_result text user_languages elapsed None)
  | Some legacy =>
      let detector := match fast_mode, D.(fasttext_detector) with
                      | true, Some ft => ft
                      | _, _ => legacy
                      end in
      catch (sp <- lift detector ;;
             ret (convert_legacy_result sp text user_languages elapsed))
            (fun e => ret (get_mock_result text user_languages elapsed (Some e)))
  end.

(** [analyze_text]; [elapsed] is the time measured at the point the result
    is built. *)
Definition analyze_text (D : Detectors) (elapsed : Q) (text : string)
  (user_languages : option (list string)) (use_cache fast_mode : bool)
  (mode : string) : M SwitchPrintResult :=
  s <- get ;;
  put (mkService s.(cache) s.(cache_hits) (S s.(total_requests))) ;;;
  let key := cache_key text user_languages mode in
  s1 <- get ;;
  match (if use_cache then dict_get key s1.(cache) else None) with
  | Some cached =>
      let r := mark_cache_hit cached elapsed in
      put (mkService (dict_set key r s1.(cache)) (S s1.(cache_hits))
             s1.(total_requests)) ;;;
      ret r
  | None =>
      match D.(integrated_detector) with
      | None => fallback_analysis D elapsed text user_languages fast_mode
      | Some primary =>
          catch
            (sp <- lift primary ;;
             _context_result <- enrich D.(context_detector) ;;
             optimization_result <- enrich D.(context_optimizer) ;;
             _dashboard <- enrich D.(metrics_dashboard) ;;
             let result := convert_v2_1_2_result sp optimization_result text
                             user_languages elapsed mode in
             (if use_cache then cache_store key result else ret tt) ;;;
             ret result)
            (fun _ => fallback_analysis D elapsed text user_languages fast_mode)
      end
  end.

(** The dict returned by [get_cache_stats]. *)
Record CacheStats := mkCacheStats {
  st_total_requests : nat;
  st_cache_hits : nat;
  st_cache_size : nat;
  st_hit_rate : Q;
  st_available : bool
}.

(** [get_cache_stats]: [hit_rate = cache_hits / max(total_requests, 1)]. *)
Definition get_cache_stats (available : bool) (s : Service) : CacheStats :=
  mkCacheStats s.(total_requests) s.(cache_hits) (length s.(cache))
    (inject_Z (Z.of_nat s.(cache_hits))
     / inject_Z (Z.of_nat (Nat.max s.(total_requests) 1)))
    available.

(** [clear_cache] *)
Definition clear_cache : M unit :=
  s <- get ;; put (mkService [] s.(cache_hits) s.(total_requests)).

(* ------------------------------------------------------------------ *)
(** ** The FastText worker ([fasttext_worker.py]) *)

Module Worker.

(** A worker token dict. *)
Record WToken := mkWToken {
  wword : string;
  wlang : string;
  wlanguage : string;
  wconfidence : Q
}.

(** A worker phrase dict, as built by [_create_phrase]. *)
Record WPhrase := mkWPhrase {
  wp_words : list string;
  wp_text : string;
  wp_language : string;
  wp_confidence : Q;
  wp_startIndex : Z;
  wp_endIndex : Z;
  wp_isUserLanguage : bool
}.

(** An entry of [detected_languages]. *)
Record DetectedLanguage := mkDetectedLanguage {
  dl_language : string;
  dl_confidence : Q;
  dl_name : string
}.

(** The successful response dict of [detect_language] (the [processing]
    sub-dict keeps the fields the claims do not read abstract). *)
Record Detection := mkDetection {
  d_tokens : list WToken;
  d_phrases : list WPhrase;
  d_switchPoints : list Z;
  d_confidence : Q;
  d_userLanguageMatch : bool;
  d_detectedLanguages : list string;
  d_timeMs : Q;
  d_tokensPerSecond : Z
}.

Inductive Response :=
| RError (msg : string)
| RDetection (d : Detection).

(** [model.predict(s, k=k)] as the list of (label, confidence) pairs. *)
Definition Model := string -> nat -> list (string * Q).

(** [_create_language_mapping] *)
Definition languages_map : Dict string :=
  [("english","en"); ("spanish","es"); ("hindi","hi"); ("mandarin","zh");
   ("chinese","zh"); ("french","fr"); ("arabic","ar"); ("portuguese","pt");
   ("russian","ru"); ("japanese","ja"); ("german","de"); ("korean","ko");
   ("italian","it"); ("dutch","nl"); ("swedish","sv"); ("norwegian","no");
   ("tagalog","tl"); ("urdu","ur"); ("bengali","bn"); ("vietnamese","vi");
   ("turkish","tr"); ("polish","pl"); ("ukrainian","uk"); ("czech","cs");
   ("greek","el"); ("hebrew","he"); ("thai","th"); ("romanian","ro");
   ("hungarian","hu"); ("finnish","fi"); ("bulgarian","bg");
   ("croatian","hr"); ("slovak","sk"); ("lithuanian","lt"); ("latvian","lv");
   ("estonian","et"); ("slovenian","sl"); ("macedonian","mk");
   ("albanian","sq"); ("serbian","sr"); ("bosnian","bs");
   ("montenegrin","cnr"); ("maltese","mt")].

(** The table of [_code_to_name]. *)
Definition code_to_name_map : Dict string :=
  [("en","English"); ("es","Spanish"); ("hi","Hindi"); ("zh","Chinese");
   ("fr","French"); ("ar","Arabic"); ("pt","Portuguese"); ("ru","Russian");
   ("ja","Japanese"); ("de","German"); ("ko","Korean"); ("it","Italian");
   ("nl","Dutch"); ("sv","Swedish"); ("no","Norwegian"); ("tl","Tagalog");
   ("ur","Urdu"); ("bn","Bengali"); ("vi","Vietnamese"); ("tr","Turkish");
   ("pl","Polish"); ("uk","Ukrainian"); ("cs","Czech"); ("el","Greek");
   ("he","Hebrew"); ("th","Thai"); ("ro","Romanian"); ("hu","Hungarian");
   ("fi","Finnish"); ("bg","Bulgarian"); ("hr","Croatian"); ("sk","Slovak");
   ("lt","Lithuanian"); ("lv","Latvian"); ("et","Estonian");
   ("sl","Slovenian"); ("mk","Macedonian"); ("sq","Albanian");
   ("sr","Serbian"); ("bs","Bosnian"); ("mt","Maltese")].

(** [str.upper()] (ASCII letters). *)
Fixpoint upper (s : string) : string :=
  match s with
  | EmptyString => EmptyString
  | String c s' =>
      let n := nat_of_ascii c in
      String (if ((97 <=? n) && (n <=? 122))%nat then ascii_of_nat (n - 32) else c)
             (upper s')
  end.

(** [_code_to_name] *)
Definition code_to_name (code : string) : string :=
  getattr (dict_get code code_to_name_map) (upper code).

(** [_normalize_language] *)
Definition normalize_language (l : string) : string :=
  let lang_lower := PyStr.strip (PyStr.lower l) in
  getattr (dict_get lang_lower languages_map) (PyStr.take 2 lang_lower).

Definition strip_label (label : string) : string :=
  PyStr.replace "__label__" "" label.

(** The token of one word: [word_pred = self.model.predict(word, k=1)]. *)
Definition word_token (predict : Model) (w : string) : WToken :=
  let p := predict w 1%nat in
  let word_lang := match p with (l, _) :: _ => strip_label l | [] => "unknown" end in
  let word_conf := match p with (_, c) :: _ => c | [] => 0 end in
  mkWToken w word_lang (code_to_name word_lang) word_conf.

Fixpoint sum_conf (ts : list WToken) : Q :=
  match ts with [] => 0 | t :: ts' => t.(wconfidence) + sum_conf ts' end.

(** [_create_phrase]; it is only called on a non-empty token list. *)
Definition create_phrase (ts : list WToken) : WPhrase :=
  let words := map wword ts in
  mkWPhrase words (PyStr.join " " words)
    (match ts with t :: _ => t.(wlanguage) | [] => "" end)
    (sum_conf ts / inject_Z (Z.of_nat (length ts)))
    0 (Z.of_nat (length words)) false.

(** The grouping loop [for token in tokens[1:]: if token['lang'] ==
    current_phrase[-1]['lang']: ... else: ...], then the final phrase. *)
Fixpoint group (cur : list WToken) (rest : list WToken) : list WPhrase :=
  match rest with
  | [] => match cur with [] => [] | _ => [create_phrase cur] end
  | t :: rest' =>
      match rev cur with
      | last_tok :: _ =>
          if String.eqb t.(wlang) last_tok.(wlang)
          then group (cur ++ [t]) rest'
          else create_phrase cur :: group [t] rest'
      | [] => group [t] rest'
      end
  end.

Definition group_tokens (ts : list WToken) : list WPhrase :=
  match ts with [] => [] | t0 :: rest => group [t0] rest end.

(** [for i in range(len(phrases) - 1): if phrases[i]['language'] !=
    phrases[i + 1]['language']: switch_points.append(phrases[i]['endIndex'])] *)
Fixpoint switch_points_of (ps : list WPhrase) : list Z :=
  match ps with
  | p :: (q :: _) as rest =>
      if String.eqb p.(wp_language) q.(wp_language)
      then switch_points_of rest
      else p.(wp_endIndex) :: switch_points_of rest
  | _ => []
  end.

Definition firstn_names (n : nat) (ds : list DetectedLanguage) : list string :=
  map dl_name (firstn n ds).

(** [text.replace('\n', ' ').replace('\r', ' ').strip()] *)
Definition clean (text : string) : string :=
  PyStr.strip
    (PyStr.replace (String (ascii_of_nat 13) EmptyString) " "
       (PyStr.replace (String (ascii_of_nat 10) EmptyString) " " text)).

(** [FastTextWorker.detect_language]; [model = None] when not initialised. *)
Definition detect_language (model : option Model) (text : string)
  (user_languages : list string) : Response :=
  match model with
  | None => RError "FastText model not initialized"
  | Some predict =>
      let cleaned := clean text in
      if String.eqb cleaned "" then RError "Empty text provided" else
      let detected := map (fun '(label, c) =>
                             let code := strip_label label in
                             mkDetectedLanguage code c (code_to_name code))
                          (predict cleaned 5%nat) in
      let words := PyStr.split cleaned in
      let toks := map (word_token predict) words in
      let phs := group_tokens toks in
      let sps := switch_points_of phs in
      let ulm := match user_languages, detected with
                 | _ :: _, primary :: _ =>
                     existsb (String.eqb primary.(dl_language))
                             (map normalize_language user_languages)
                 | _, _ => false
                 end in
      RDetection (mkDetection toks phs sps
        (match detected with primary :: _ => primary.(dl_confidence) | [] => 0 end)
        ulm (firstn_names 3 detected) 0 (Z.of_nat (length toks) * 1000))
  end.

End Worker.

(* ------------------------------------------------------------------ *)
(** ** The worker's request loop ([main]) *)

Module WorkerLoop.

#[local] Set Warnings "-register-all".

(** A value produced by [json.loads]. *)
Inductive JSON :=
| JNull
| JBool (b : bool)
| JInt (n : Z)
| JFloat (q : Q)
| JStr (s : string)
| JArr (l : list JSON)
| JObj (kvs : list (string * JSON)).

(** Python truthiness of such a value. *)
Definition json_truthy (j : JSON) : bool :=
  match j with
  | JNull => false
  | JBool b => b
  | JInt n => negb (Z.eqb n 0)
  | JFloat q => negb (Qeq_bool q 0)
  | JStr s => negb (String.eqb s "")
  | JArr l => negb (is_nil l)
  | JObj kvs => negb (is_nil kvs)
  end.

Definition type_name (j : JSON) : string :=
  match j with
  | JNull => "NoneType" | JBool _ => "bool" | JInt _ => "int"
  | JFloat _ => "float" | JStr _ => "str" | JArr _ => "list" | JObj _ => "dict"
  end.

(** [dict.get(k, default)] on a decoded object: a repeated key keeps its
    last value, as [json.loads] does. *)
Definition obj_get (k : string) (kvs : list (string * JSON)) (d : JSON) : JSON :=
  getattr (dict_get k (rev kvs)) d.

(** The exceptions the loop body distinguishes. *)
Inductive PyExc :=
| JSONDecodeError (msg : string)
| OtherError (msg : string).

(** One output event on stdout. *)
Inductive Event :=
| Print (j : JSON)
| Flush.

Definition error_obj (msg : string) : JSON := JObj [("error", JStr msg)].

Section Loop.

(** [json.loads] on one stripped line. *)
Variable json_loads : string -> PyExc + JSON.

(** [worker.detect_language(text, languages)] followed by the [timeMs]
    update, as the JSON it returns; its body is one [try] whose handler
    returns an error dict, so it returns a dict for every input. *)
Variable detect : JSON -> JSON -> JSON.

(** The [try] body for one non-blank line: it either raises or prints and
    flushes one response. *)
Definition body (line : string) : PyExc + list Event :=
  match json_loads line with
  | inl e => inl e
  | inr request =>
      match request with
      | JObj kvs =>
          let text := obj_get "text" kvs (JStr "") in
          let languages := obj_get "languages" kvs (JArr []) in
          let response := if negb (json_truthy text)
                          then error_obj "No text provided"
                          else detect text languages in
          inr [Print response; Flush]
      | other =>
          inl (OtherError ("'" ++ type_name other
                           ++ "' object has no attribute 'get'"))
      end
  end.

(** [for line in sys.stdin: line = line.strip(); if not line: continue;
    try: ... except json.JSONDecodeError: ... except Exception: ...] *)
Fixpoint serve (lines : list string) : list Event :=
  match lines with
  | [] => []
  | raw :: rest =>
      let line := PyStr.strip raw in
      if String.eqb line "" then serve rest
      else
        let out := match body line with
                   | inr evs => evs
                   | inl (JSONDecodeError m) =>
                       [Print (error_obj ("Invalid JSON: " ++ m)); Flush]
                   | inl (OtherError m) =>
                       [Print (error_obj ("Processing failed: " ++ m)); Flush]
                   end in
        out ++ serve rest
  end.

End Loop.

End WorkerLoop.

(* ------------------------------------------------------------------ *)
(** ** Properties of the phrase grouping *)

Open Scope nat_scope.
Open Scope list_scope.

(** The phrases cut the token list into consecutive non-empty blocks, each
    phrase carrying its block's words and the language of all its tokens. *)
Definition phrase_partition (phs : list Phrase) (toks : list Token) : Prop :=
  exists blocks : list (list Token), toks = concat blocks /\
    Forall2 (fun p b => b <> [] /\ pwords p = map word b /\
               Forall (fun t => lang t = planguage p /\ language t = planguage p) b)
            phs blocks.

(** Inclusive index ranges, each starting right after the previous one. *)
Fixpoint index_chain (phs : list Phrase) (st : Z) : Prop :=
  match phs with
  | [] => True
  | p :: ps =>
      startIndex p = st /\
      endIndex p = (startIndex p + Z.of_nat (length (pwords p)) - 1)%Z /\
      index_chain ps (endIndex p + 1)%Z
  end.

Definition word_count (phs : list Phrase) : nat :=
  fold_right (fun p n => (length (pwords p) + n)%nat) 0%nat phs.

Lemma group_loop_spec : forall conf ul rest i ws l st cur,
  cur <> [] -> ws = map word cur ->
  Forall (fun t => lang t = l /\ language t = l) cur ->
  Forall (fun t => lang t = language t) rest ->
  Z.of_nat i = (st + Z.of_nat (length ws))%Z ->
  (exists blocks : list (list Token), (cur ++ rest)%list = concat blocks /\
     Forall2 (fun p b => b <> [] /\ pwords p = map word b /\
               Forall (fun t => lang t = planguage p /\ language t = planguage p) b)
             (group_loop conf ul i rest ws l st) blocks) /\
  index_chain (group_loop conf ul i rest ws l st) st.
Proof.
  intros conf ul rest. induction rest as [|t rest IH];
    intros i ws l st cur Hne Hws Hcur Hrest Hi; simpl.
  - split.
    + exists [cur]. simpl. rewrite app_nil_r. split; [reflexivity|].
      constructor; [|constructor]. simpl. auto.
    + simpl. repeat split; lia.
  - inversion Hrest as [|? ? Ht Hrest']; subst.
    destruct (String.eqb_spec (lang t) l) as [Heq|Hneq].
    + destruct (IH (S i) (map word cur ++ [word t]) l st (cur ++ [t]))
        as [[blocks [Hc Hf]] Hch].
      * destruct cur; simpl; congruence.
      * rewrite map_app. reflexivity.
      * apply Forall_app. split; auto. constructor; [|constructor]. split; congruence.
      * exact Hrest'.
      * rewrite length_app, length_map. simpl. rewrite length_map in Hi. lia.
      * split; [|exact Hch]. exists blocks. split; [|exact Hf].
        rewrite <- Hc, <- app_assoc. reflexivity.
    + destruct (IH (S i) [word t] (lang t) (Z.of_nat i) [t])
        as [[blocks [Hc Hf]] Hch].
      * discriminate.
      * reflexivity.
      * constructor; [|constructor]. split; congruence.
      * exact Hrest'.
      * simpl. lia.
      * split.
        -- exists (cur :: blocks). simpl. split; [rewrite <- Hc; reflexivity|].
           constructor; [simpl; auto|exact Hf].
        -- simpl. split; [reflexivity|]. split; [lia|].
           rewrite length_map in *.
           replace (st + Z.of_nat (length cur) - 1 + 1)%Z with (Z.of_nat i) by lia.
           exact Hch.
Qed.

Lemma group_phrases_spec : forall conf ul toks,
  Forall (fun t => lang t = language t) toks ->
  phrase_partition (group_phrases conf ul toks) toks /\
  index_chain (group_phrases conf ul toks) 0.
Proof.
  intros conf ul [|t0 rest] Hall; simpl.
  - split; [|exact I]. exists []. split; constructor.
  - inversion Hall; subst.
    destruct (group_loop_spec conf ul rest 1 [word t0] (lang t0) 0 [t0])
      as [[blocks [Hc Hf]] Hch].
    + discriminate.
    + reflexivity.
    + constructor; [|constructor]. split; congruence.
    + assumption.
    + reflexivity.
    + split; [exists blocks; split; assumption|exact Hch].
Qed.

Lemma partition_word_count : forall phs toks,
  phrase_partition phs toks -> word_count phs = length toks.
Proof.
  intros phs toks [blocks [-> Hf]]. induction Hf as [|p b phs' bs [_ [Hw _]] _ IH];
    simpl; [reflexivity|].
  rewrite Hw, length_map, length_app, IH. reflexivity.
Qed.

Lemma assign_single_lang : forall dl conf ws,
  Forall (fun t => lang t = language t) (assign_single dl conf ws).
Proof.
  intros. unfold assign_single. apply Forall_forall. intros t Ht.
  apply in_map_iff in Ht as [w [<- _]]. reflexivity.
Qed.

Lemma assign_cyclic_lang : forall dl sps conf ws i idx,
  Forall (fun t => lang t = language t) (assign_cyclic dl sps conf i idx ws).
Proof.
  intros dl sps conf ws. induction ws; intros; simpl; constructor; auto.
Qed.

Lemma assign_clamp_lang : forall dl sps conf ws i idx,
  Forall (fun t => lang t = language t) (assign_clamp dl sps conf i idx ws).
Proof.
  intros dl sps conf ws. induction ws; intros; simpl; constructor; auto.
Qed.

(** The worker's phrases cut its token list into consecutive non-empty
    blocks; each phrase carries its block's words, the fixed [startIndex] 0,
    [endIndex] equal to its word count, and the language name of all its
    tokens. *)
Definition worker_partition (phs : list Worker.WPhrase)
  (toks : list Worker.WToken) : Prop :=
  exists blocks : list (list Worker.WToken), toks = concat blocks /\
    Forall2 (fun p b => b <> [] /\ Worker.wp_words p = map Worker.wword b /\
               Worker.wp_startIndex p = 0%Z /\
               Worker.wp_endIndex p = Z.of_nat (length b) /\
               Forall (fun t => Worker.wlanguage t = Worker.wp_language p) b)
            phs blocks.

(** The inclusive-index chain of the claim, read on the worker's phrases. *)
Fixpoint worker_index_chain (phs : list Worker.WPhrase) (st : Z) : Prop :=
  match phs with
  | [] => True
  | p :: ps =>
      Worker.wp_startIndex p = st /\
      Worker.wp_endIndex p =
        (Worker.wp_startIndex p + Z.of_nat (length (Worker.wp_words p)) - 1)%Z /\
      worker_index_chain ps (Worker.wp_endIndex p + 1)%Z
  end.

Section WorkerGrouping.

Definition named (t : Worker.WToken) : Prop :=
  Worker.wlanguage t = Worker.code_to_name (Worker.wlang t).

Lemma create_phrase_spec : forall cur c,
  cur <> [] -> Forall (fun t => Worker.wlang t = Worker.wlang c) cur ->
  Forall named cur ->
  let p := Worker.create_phrase cur in
  Worker.wp_words p = map Worker.wword cur /\ Worker.wp_startIndex p = 0%Z /\
  Worker.wp_endIndex p = Z.of_nat (length cur) /\
  Forall (fun t => Worker.wlanguage t = Worker.wp_language p) cur.
Proof.
  intros [|t0 cur] c Hne Hl Hn; [congruence|]. simpl.
  split; [reflexivity|]. split; [reflexivity|].
  split; [rewrite length_map; reflexivity|].
  inversion Hl as [|? ? Hl0 _]; inversion Hn as [|? ? Hn0 _]; subst.
  apply Forall_forall. intros t Ht.
  rewrite Forall_forall in Hl, Hn.
  rewrite (Hn t Ht), (Hl t Ht), Hn0, Hl0. reflexivity.
Qed.

Lemma group_spec : forall rest cur c,
  cur <> [] -> Forall (fun t => Worker.wlang t = Worker.wlang c) cur ->
  Forall named (cur ++ rest) ->
  exists blocks : list (list Worker.WToken), cur ++ rest = concat blocks /\
    Forall2 (fun p b => b <> [] /\ Worker.wp_words p = map Worker.wword b /\
               Worker.wp_startIndex p = 0%Z /\
               Worker.wp_endIndex p = Z.of_nat (length b) /\
               Forall (fun t => Worker.wlanguage t = Worker.wp_language p) b)
            (Worker.group cur rest) blocks.
Proof.
  induction rest as [|t rest IH]; intros cur c Hne Hl Hn.
  - rewrite app_nil_r in *. exists [cur].
    destruct (create_phrase_spec cur c Hne Hl Hn) as [H1 [H2 [H3 H4]]].
    destruct cur as [|t0 cur']; [congruence|]. simpl.
    split; [rewrite app_nil_r; reflexivity|].
    constructor; [|constructor]. repeat split; auto.
  - simpl. apply Forall_app in Hn as [Hnc Hnr].
    inversion Hnr as [|? ? Hnt Hnr']; subst.
    destruct (rev cur) as [|lt r] eqn:Hr.
    + apply (f_equal (@rev _)) in Hr. rewrite rev_involutive in Hr.
      simpl in Hr. congruence.
    + assert (Hlt : In lt cur).
      { apply in_rev. rewrite Hr. left. reflexivity. }
      destruct (String.eqb_spec (Worker.wlang t) (Worker.wlang lt)) as [Heq|Hneq].
      * destruct (IH (cur ++ [t]) c) as [blocks [Hc Hf]].
        -- destruct cur; simpl; congruence.
        -- apply Forall_app. split; [exact Hl|].
           constructor; [|constructor].
           rewrite Forall_forall in Hl. rewrite Heq. apply Hl, Hlt.
        -- apply Forall_app. split; [apply Forall_app; split; auto|exact Hnr'].
        -- exists blocks. split; [|exact Hf].
           rewrite <- Hc, <- app_assoc. reflexivity.
      * destruct (IH [t] t) as [blocks [Hc Hf]].
        -- discriminate.
        -- constructor; [reflexivity|constructor].
        -- constructor; assumption.
        -- exists (cur :: blocks).
           destruct (create_phrase_spec cur c Hne Hl Hnc) as [H1 [H2 [H3 H4]]].
           split; [simpl; rewrite <- Hc; reflexivity|].
           constructor; [repeat split; auto|exact Hf].
Qed.

Lemma group_tokens_spec : forall toks,
  Forall named toks ->
  worker_partition (Worker.group_tokens toks) toks.
Proof.
  intros [|t0 rest] Hn; simpl.
  - exists []. split; constructor.
  - apply (group_spec rest [t0] t0).
    + discriminate.
    + constructor; [reflexivity|constructor].
    + exact Hn.
Qed.

Lemma word_tokens_named : forall predict words,
  Forall named (map (Worker.word_token predict) words).
Proof.
  intros predict words. apply Forall_forall. intros t Ht.
  apply in_map_iff in Ht as [w [<- _]]. reflexivity.
Qed.

End WorkerGrouping.

(** A concrete FastText model: "hola" is Spanish, every other input English. *)
Definition demo_model : Worker.Model :=
  fun s _ => if String.eqb s "hola" then [("__label__es", 9 # 10)]
             else [("__label__en", 9 # 10)].

(** C1 (amended): the primary and the legacy conversions group the tokens
    into a contiguous, order-preserving, gap-free partition: blocks of
    consecutive tokens, word counts summing to the token count, the first
    [startIndex] 0, [endIndex = startIndex + wordCount - 1], each next
    [startIndex] one past the previous [endIndex], and each phrase's
    language equal to the language of each of its tokens.  The worker's
    phrases also partition its tokens in order with the language of each
    of their tokens, but carry the fixed placeholders [startIndex = 0] and
    [endIndex = wordCount]. *)
Theorem C1_phrase_partition :
  (forall sp opt text ul elapsed mode,
     let r := convert_v2_1_2_result sp opt text ul elapsed mode in
     phrase_partition r.(phrases) r.(tokens) /\
     index_chain r.(phrases) 0 /\
     word_count r.(phrases) = length r.(tokens)) /\
  (forall sp text ul elapsed,
     let r := convert_legacy_result sp text ul elapsed in
     phrase_partition r.(phrases) r.(tokens) /\
     index_chain r.(phrases) 0 /\
     word_count r.(phrases) = length r.(tokens)) /\
  (forall model text ul,
     match Worker.detect_language model text ul with
     | Worker.RDetection d => worker_partition d.(Worker.d_phrases) d.(Worker.d_tokens)
     | Worker.RError _ => True
     end).
Proof.
  split; [|split].
  - intros sp opt text ul elapsed mode r.
    assert (Hl : Forall (fun t => lang t = language t) r.(tokens)).
    { subst r. unfold convert_v2_1_2_result. simpl.
      destruct (_ && _); [apply assign_cyclic_lang|apply assign_single_lang]. }
    destruct (group_phrases_spec (calibrated_confidence r) ul _ Hl) as [Hp Hc].
    subst r. simpl in *.
    split; [exact Hp|split; [exact Hc|apply partition_word_count, Hp]].
  - intros sp text ul elapsed r.
    assert (Hl : Forall (fun t => lang t = language t) r.(tokens)).
    { subst r. unfold convert_legacy_result. simpl.
      destruct (_ && _); [apply assign_clamp_lang|apply assign_single_lang]. }
    destruct (group_phrases_spec (confidence r) ul _ Hl) as [Hp Hc].
    subst r. simpl in *.
    split; [exact Hp|split; [exact Hc|apply partition_word_count, Hp]].
  - intros [predict|] text ul; simpl; [|exact I].
    destruct (String.eqb _ ""); [exact I|]. simpl.
    apply group_tokens_spec, word_tokens_named.
Qed.

(** C1 (counterexample): on the worker, "hola hello" gives two phrases whose
    indices are not the inclusive, consecutive token ranges the claim
    describes (both start at 0 and end at 1). *)
Lemma C1_worker_indices_counterexample :
  match Worker.detect_language (Some demo_model) "hola hello" [] with
  | Worker.RDetection d =>
      map (fun p => (Worker.wp_startIndex p, Worker.wp_endIndex p)) d.(Worker.d_phrases)
        = [(0, 1); (0, 1)]%Z /\
      ~ worker_index_chain d.(Worker.d_phrases) 0
  | Worker.RError _ => False
  end.
Proof.
  vm_compute. split; [reflexivity|]. intros [_ [H _]]. discriminate.
Qed.

(* ------------------------------------------------------------------ *)
(** ** Switch points *)

Lemma switch_points_of_cons2 : forall p q ps,
  Worker.switch_points_of (p :: q :: ps) =
  if String.eqb (Worker.wp_language p) (Worker.wp_language q)
  then Worker.switch_points_of (q :: ps)
  else Worker.wp_endIndex p :: Worker.switch_points_of (q :: ps).
Proof. reflexivity. Qed.

Lemma switch_points_of_cons_length : forall ps p,
  length (Worker.switch_points_of (p :: ps)) <= length ps.
Proof.
  induction ps as [|q ps IH]; intros p; [simpl; lia|].
  specialize (IH q). rewrite switch_points_of_cons2.
  change (length (q :: ps)) with (S (length ps)).
  destruct (String.eqb _ _); [lia|].
  change (length (?x :: ?l)) with (S (length l)). lia.
Qed.

Lemma switch_points_of_length : forall ps,
  length (Worker.switch_points_of ps) <= length ps - 1.
Proof.
  intros [|p ps]; [simpl; lia|].
  pose proof (switch_points_of_cons_length ps p).
  change (length (p :: ps)) with (S (length ps)). lia.
Qed.

Lemma switch_points_of_cons_origin : forall ps p x,
  In x (Worker.switch_points_of (p :: ps)) ->
  exists pre p' q post, p :: ps = pre ++ p' :: q :: post /\
    Worker.wp_language p' <> Worker.wp_language q /\ x = Worker.wp_endIndex p'.
Proof.
  induction ps as [|q ps IH]; intros p x Hx; [contradiction|].
  rewrite switch_points_of_cons2 in Hx.
  destruct (String.eqb_spec (Worker.wp_language p) (Worker.wp_language q)) as [E|E].
  - destruct (IH q x Hx) as [pre [p' [q' [post [H1 [H2 H3]]]]]].
    exists (p :: pre), p', q', post. rewrite H1. auto.
  - simpl in Hx. destruct Hx as [<-|Hx].
    + exists [], p, q, ps. auto.
    + destruct (IH q x Hx) as [pre [p' [q' [post [H1 [H2 H3]]]]]].
      exists (p :: pre), p', q', post. rewrite H1. auto.
Qed.

Lemma switch_points_of_origin : forall ps x,
  In x (Worker.switch_points_of ps) ->
  exists pre p q post, ps = pre ++ p :: q :: post /\
    Worker.wp_language p <> Worker.wp_language q /\ x = Worker.wp_endIndex p.
Proof.
  intros [|p ps] x Hx; [contradiction|]. apply switch_points_of_cons_origin, Hx.
Qed.

(** The claim's reading of the worker's switch points: the [endIndex] of
    the first phrase of every adjacent pair of phrases whose language names
    differ, pair by pair in order. *)
Definition differing_pairs (ps : list Worker.WPhrase) : list (Worker.WPhrase * Worker.WPhrase) :=
  filter (fun pq => negb (String.eqb (Worker.wp_language (fst pq)) (Worker.wp_language (snd pq))))
    (combine ps (tl ps)).

Lemma switch_points_of_cons_pairs : forall ps p,
  Worker.switch_points_of (p :: ps) =
  map (fun pq => Worker.wp_endIndex (fst pq)) (differing_pairs (p :: ps)).
Proof.
  unfold differing_pairs.
  induction ps as [|q ps IH]; intros p; [reflexivity|].
  rewrite switch_points_of_cons2, IH. cbn [tl combine filter fst snd].
  destruct (String.eqb _ _); reflexivity.
Qed.

Lemma switch_points_of_pairs : forall ps,
  Worker.switch_points_of ps =
  map (fun pq => Worker.wp_endIndex (fst pq)) (differing_pairs ps).
Proof. intros [|p ps]; [reflexivity|apply switch_points_of_cons_pairs]. Qed.

Lemma group_end_index : forall rest cur,
  Forall (fun p => Worker.wp_endIndex p = Z.of_nat (length (Worker.wp_words p)))
    (Worker.group cur rest).
Proof.
  induction rest as [|t rest IH]; intros cur; simpl.
  - destruct cur; repeat constructor.
  - destruct (rev cur) as [|lt r]; [apply IH|].
    destruct (String.eqb _ _); [apply IH|constructor; [reflexivity|apply IH]].
Qed.

(** C2 (amended): the primary conversion returns the detector's
    [switch_points] attribute unchanged (empty when absent) and the legacy
    conversion the indices extracted from the detector's switch points;
    neither list is computed from the phrases.  Only the worker derives
    its switch points from its phrases: exactly one entry, the phrase's
    [endIndex], for each adjacent pair of phrases whose language names
    differ, in order, hence at most [len(phrases) - 1] entries; and each
    worker phrase's [endIndex] is its word count. *)
Theorem C2_switch_points_origin :
  (forall sp opt text ul elapsed mode,
     (convert_v2_1_2_result sp opt text ul elapsed mode).(switch_points)
       = getattr sp.(ir_switch_points) []) /\
  (forall sp text ul elapsed,
     (convert_legacy_result sp text ul elapsed).(switch_points)
       = match sp.(lr_switch_points) with
         | Some l => extract_switch_points l
         | None => []
         end) /\
  (forall model text ul,
     match Worker.detect_language model text ul with
     | Worker.RDetection d =>
         d.(Worker.d_switchPoints) =
           map (fun pq => Worker.wp_endIndex (fst pq)) (differing_pairs d.(Worker.d_phrases)) /\
         length d.(Worker.d_switchPoints) <= length d.(Worker.d_phrases) - 1 /\
         (forall x, In x d.(Worker.d_switchPoints) ->
            exists pre p q post, d.(Worker.d_phrases) = pre ++ p :: q :: post /\
              Worker.wp_language p <> Worker.wp_language q /\
              x = Worker.wp_endIndex p) /\
         Forall (fun p => Worker.wp_endIndex p = Z.of_nat (length (Worker.wp_words p)))
           d.(Worker.d_phrases)
     | Worker.RError _ => True
     end).
Proof.
  split; [|split].
  - reflexivity.
  - reflexivity.
  - intros [predict|] text ul; simpl; [|exact I].
    destruct (String.eqb _ ""); [exact I|]. cbn [Worker.d_switchPoints Worker.d_phrases].
    split; [apply switch_points_of_pairs|].
    split; [apply switch_points_of_length|].
    split; [apply switch_points_of_origin|].
    unfold Worker.group_tokens. destruct (map _ _); [constructor|apply group_end_index].
Qed.

(** C2 (counterexample): a primary result with one language and detector
    switch points [5; 1] has one phrase but two switch points, not
    increasing; the worker on "hola hola hello hola hola" reports the
    switch points [2; 1], not increasing either. *)
Lemma C2_switch_points_counterexample :
  let r := convert_v2_1_2_result
             (mkIntegratedResult None None None None None (Some ["english"])
                (Some [5; 1]%Z))
             None "good morning" None 0 "balanced" in
  length r.(phrases) = 1 /\ r.(switch_points) = [5; 1]%Z /\
  match Worker.detect_language (Some demo_model) "hola hola hello hola hola" [] with
  | Worker.RDetection d => d.(Worker.d_switchPoints) = [2; 1]%Z
  | Worker.RError _ => False
  end.
Proof.
  vm_compute. repeat split; reflexivity.
Qed.

(* ------------------------------------------------------------------ *)
(** ** The orchestrator: equations of the monadic steps *)

(** What the eviction leaves of the cache after a store. *)
Definition evict (c : Dict SwitchPrintResult) : Dict SwitchPrintResult :=
  if (CACHE_CEILING <? length c)%nat then skipn CACHE_EVICT c else c.

Lemma cache_del_all_prefix : forall l1 l2 h t,
  cache_del_all (map fst l1) (mkService (l1 ++ l2) h t) = (Ok tt, mkService l2 h t).
Proof.
  induction l1 as [|[k v] l1 IH]; intros l2 h t; [reflexivity|].
  simpl. unfold bind, cache_del. simpl. rewrite String.eqb_refl. apply IH.
Qed.

Lemma cache_store_eq : forall k r s,
  cache_store k r s =
  (Ok tt, mkService (evict (dict_set k r s.(cache))) s.(cache_hits) s.(total_requests)).
Proof.
  intros k r [c h t]. unfold cache_store, evict, bind, get, put. simpl.
  destruct (CACHE_CEILING <? length (dict_set k r c))%nat; [|reflexivity].
  rewrite <- (firstn_skipn CACHE_EVICT (dict_set k r c)) at 2.
  apply cache_del_all_prefix.
Qed.

Definition enrich_value {A} (stage : option (outcome A)) : option A :=
  match stage with Some (Ok a) => Some a | _ => None end.

Lemma enrich_eq : forall A (stage : option (outcome A)) s,
  enrich stage s = (Ok (enrich_value stage), s).
Proof. intros A [[a|e]|] s; reflexivity. Qed.

(** The detector the fallback calls when a legacy detector exists. *)
Definition fallback_detector (D : Detectors) (fast_mode : bool)
  (legacy : outcome LegacyResult) : outcome LegacyResult :=
  match fast_mode, D.(fasttext_detector) with
  | true, Some ft => ft
  | _, _ => legacy
  end.

(** The value of the fallback chain below the primary detector. *)
Definition fallback_value (D : Detectors) (elapsed : Q) (text : string)
  (ul : option (list string)) (fast_mode : bool) : SwitchPrintResult :=
  match D.(legacy_detector) with
  | None => get_mock_result text ul elapsed None
  | Some legacy =>
      match fallback_detector D fast_mode legacy with
      | Ok sp => convert_legacy_result sp text ul elapsed
      | Exn e => get_mock_result text ul elapsed (Some e)
      end
  end.

Lemma fallback_eq : forall D elapsed text ul fm s,
  fallback_analysis D elapsed text ul fm s = (Ok (fallback_value D elapsed text ul fm), s).
Proof.
  intros D elapsed text ul fm s. unfold fallback_analysis, fallback_value, fallback_detector.
  destruct (legacy_detector D) as [legacy|]; [|reflexivity].
  destruct fm, (fasttext_detector D) as [ft|]; unfold catch, bind, lift, ret;
    [destruct ft|destruct legacy|destruct legacy|destruct legacy]; reflexivity.
Qed.

(** The state after the request counter has been incremented. *)
Definition counted (s : Service) : Service :=
  mkService s.(cache) s.(cache_hits) (S s.(total_requests)).

(** [analyze_text] as a function of its inputs, case by case. *)
Lemma analyze_text_eq : forall D elapsed text ul uc fm mode s,
  let key := cache_key text ul mode in
  analyze_text D elapsed text ul uc fm mode s =
  match (if uc then dict_get key s.(cache) else None) with
  | Some cached =>
      (Ok (mark_cache_hit cached elapsed),
       mkService (dict_set key (mark_cache_hit cached elapsed) s.(cache))
         (S s.(cache_hits)) (S s.(total_requests)))
  | None =>
      match D.(integrated_detector) with
      | Some (Ok sp) =>
          let r := convert_v2_1_2_result sp (enrich_value D.(context_optimizer))
                     text ul elapsed mode in
          (Ok r, if uc then mkService (evict (dict_set key r s.(cache)))
                              s.(cache_hits) (S s.(total_requests))
                 else counted s)
      | _ => (Ok (fallback_value D elapsed text ul fm), counted s)
      end
  end.
Proof.
  intros D elapsed text ul uc fm mode [c h t] key.
  unfold analyze_text, bind, get, put, ret. simpl. fold key.
  destruct (if uc then dict_get key c else None) as [cached|]; [reflexivity|].
  destruct (integrated_detector D) as [[sp|e]|];
    [|apply (fallback_eq D elapsed text ul fm (counted (mkService c h t)))
     |apply (fallback_eq D elapsed text ul fm (counted (mkService c h t)))].
  unfold catch, lift. rewrite !enrich_eq.
  destruct uc.
  - rewrite cache_store_eq. reflexivity.
  - reflexivity.
Qed.

(** [analyze_text] never raises: every path ends in a returned result. *)
Lemma analyze_text_total : forall D elapsed text ul uc fm mode s,
  exists r s', analyze_text D elapsed text ul uc fm mode s = (Ok r, s').
Proof.
  intros. rewrite analyze_text_eq.
  destruct (if uc then _ else None); [eexists; eexists; reflexivity|].
  destruct (integrated_detector D) as [[sp|e]|]; eexists; eexists; reflexivity.
Qed.

(* ------------------------------------------------------------------ *)
(** ** The fallback chain and the mock tier *)

(** No component available (the [codeswitch_ai] import failed). *)
Definition no_detectors : Detectors := mkDetectors None None None None None None.

(** The primary detector raises, and so does the legacy detector. *)
Definition failing_detectors (e1 e2 : string) : Detectors :=
  mkDetectors (Some (Exn e1)) None None None (Some (Exn e2)) None.

(** C3 (code bug): [analyze_text] does not raise, but when the legacy
    detector raises, the mock result it returns carries nothing of the
    error: it equals the result of a service with no detector at all, whatever
    the messages of the two exceptions. *)
Theorem C3_mock_error_not_recorded :
  (forall D elapsed text ul uc fm mode s,
     exists r s', analyze_text D elapsed text ul uc fm mode s = (Ok r, s')) /\
  fst (analyze_text (failing_detectors "primary failed" "legacy failed")
         0 "hello world" None true false "balanced" init_service)
  = fst (analyze_text no_detectors
           0 "hello world" None true false "balanced" init_service) /\
  fst (analyze_text (failing_detectors "primary failed" "legacy failed")
         0 "hello world" None true false "balanced" init_service)
  = fst (analyze_text (failing_detectors "timeout" "out of memory")
           0 "hello world" None true false "balanced" init_service).
Proof.
  split; [apply analyze_text_total|]. split; vm_compute; reflexivity.
Qed.

(** A tier that cannot produce a result: absent or raising. *)
Definition unusable {A} (o : option (outcome A)) : Prop :=
  match o with Some (Ok _) => False | _ => True end.

(** No real detector tier is usable for this call. *)
Definition no_usable_tier (D : Detectors) (fast_mode : bool) : Prop :=
  unusable D.(integrated_detector) /\
  match D.(legacy_detector) with
  | None => True
  | Some legacy => unusable (Some (fallback_detector D fast_mode legacy))
  end.

(** C4 (code bug): with no usable tier and no cached answer, [analyze_text]
    returns the mock result: tokens and its single phrase in
    [userLanguages[0]] or 'english', confidence 0.85, one phrase over all
    words from 0 to [len(words) - 1], no switch points; but its [version]
    is the dataclass default "2.1.2", the very tag of the primary tier,
    so it does not identify the mock tier. *)
Theorem C4_mock_tier_result : forall (D : Detectors) (elapsed : Q) (text : string)
  (ul : option (list string)) (uc fm : bool) (mode : string) (s : Service),
  no_usable_tier D fm ->
  (if uc then dict_get (cache_key text ul mode) s.(cache) else None) = None ->
  let mock_lang := match ul with Some (u :: _) => u | _ => "english" end in
  let words := PyStr.split text in
  exists r s',
    analyze_text D elapsed text ul uc fm mode s = (Ok r, s') /\
    Forall (fun t => lang t = mock_lang /\ language t = mock_lang) r.(tokens) /\
    map word r.(tokens) = words /\
    r.(phrases) = [mkPhrase words text mock_lang (85 # 100) 0
                     (Z.of_nat (length words) - 1) (PyBool true)] /\
    r.(confidence) = 85 # 100 /\
    r.(switch_points) = [] /\
    r.(version) = SWITCHPRINT_VERSION.
Proof.
  intros D elapsed text ul uc fm mode s [Hi Hl] Hc mock_lang words.
  rewrite analyze_text_eq. simpl. rewrite Hc.
  assert (Hf : exists e, fallback_value D elapsed text ul fm
                         = get_mock_result text ul elapsed e).
  { unfold fallback_value. destruct (legacy_detector D) as [legacy|].
    - destruct (fallback_detector D fm legacy) as [sp|e]; [contradiction|].
      exists (Some e). reflexivity.
    - exists None. reflexivity. }
  destruct Hf as [e He].
  assert (Hr : exists s', (match integrated_detector D with
      | Some (Ok sp) =>
          let r := convert_v2_1_2_result sp (enrich_value (context_optimizer D))
                     text ul elapsed mode in
          (Ok r, if uc then mkService (evict (dict_set (cache_key text ul mode) r (cache s)))
                              (cache_hits s) (S (total_requests s))
                 else counted s)
      | _ => (Ok (fallback_value D elapsed text ul fm), counted s)
      end) = (Ok (get_mock_result text ul elapsed e), s')).
  { destruct (integrated_detector D) as [[sp|x]|]; [contradiction| |];
      exists (counted s); rewrite He; reflexivity. }
  destruct Hr as [s' Hr]. exists (get_mock_result text ul elapsed e), s'.
  split; [exact Hr|]. unfold get_mock_result. simpl.
  split.
  - apply Forall_forall. intros t Ht. apply in_map_iff in Ht as [w [<- _]].
    split; reflexivity.
  - split; [rewrite map_map; simpl; apply map_id|].
    repeat split; reflexivity.
Qed.

Lemma C4_mock_tier_result_witness :
  no_usable_tier no_detectors false /\
  dict_get (cache_key "hello world" None "balanced") init_service.(cache) = None /\
  exists r s',
    analyze_text no_detectors 0 "hello world" None true false "balanced"
      init_service = (Ok r, s') /\
    Forall (fun t => lang t = "english" /\ language t = "english") r.(tokens) /\
    map word r.(tokens) = PyStr.split "hello world" /\
    r.(phrases) = [mkPhrase (PyStr.split "hello world") "hello world" "english"
                     (85 # 100) 0
                     (Z.of_nat (length (PyStr.split "hello world")) - 1)
                     (PyBool true)] /\
    r.(confidence) = 85 # 100 /\
    r.(switch_points) = [] /\
    r.(version) = SWITCHPRINT_VERSION.
Proof.
  split; [split; exact I|]. split; [reflexivity|].
  exact (C4_mock_tier_result no_detectors 0 "hello world" None true false
           "balanced" init_service (conj I I) eq_refl).
Defined.

(* ------------------------------------------------------------------ *)
(** ** User-language matching *)

Lemma user_lang_match_iff : forall ul dl,
  user_lang_match ul dl = true <->
  exists us u d, ul = Some us /\ In u us /\ In d dl /\ PyStr.lower u = PyStr.lower d.
Proof.
  intros ul dl. split.
  - intros H. unfold user_lang_match in H.
    destruct ul as [[|u0 us]|]; try discriminate H.
    destruct dl as [|d0 dl]; [discriminate H|].
    apply existsb_exists in H as [u [Hu H]].
    apply existsb_exists in H as [ld [Hd E]].
    apply String.eqb_eq in E. apply in_map_iff in Hd as [d [<- Hd]].
    exists (u0 :: us), u, d. auto.
  - intros [us [u [d [-> [Hu [Hd E]]]]]]. unfold user_lang_match.
    destruct us as [|u0 us]; [contradiction|]. destruct dl as [|d0 dl]; [contradiction|].
    apply existsb_exists. exists u. split; [exact Hu|].
    apply existsb_exists. exists (PyStr.lower d). split.
    + apply in_map, Hd.
    + apply String.eqb_eq, E.
Qed.

Lemma group_loop_user : forall conf ul rest i ws l st,
  Forall (fun p => isUserLanguage p = is_user_language ul (planguage p))
         (group_loop conf ul i rest ws l st).
Proof.
  intros conf ul rest. induction rest as [|t rest IH]; intros; simpl.
  - constructor; [reflexivity|constructor].
  - destruct (String.eqb _ _); [apply IH|constructor; [reflexivity|apply IH]].
Qed.

Lemma group_phrases_user : forall conf ul toks,
  Forall (fun p => isUserLanguage p = is_user_language ul (planguage p))
         (group_phrases conf ul toks).
Proof.
  intros conf ul [|t0 rest]; [constructor|apply group_loop_user].
Qed.

Lemma is_user_language_iff : forall ul l,
  truthy (is_user_language ul l) = true <-> exists us, ul = Some us /\ In l us.
Proof.
  intros [[|u0 us]|] l; cbv beta iota delta [truthy is_user_language].
  - split; [discriminate|intros [us [E H]]; injection E as <-; destruct H].
  - split.
    + intros H. apply existsb_exists in H as [u [Hu E]].
      apply String.eqb_eq in E. subst u. exists (u0 :: us). auto.
    + intros [us' [E Hin]]. injection E as <-.
      apply existsb_exists. exists l. split; [exact Hin|apply String.eqb_refl].
  - split; [discriminate|intros [us [E _]]; discriminate].
Qed.

(** What the code does for one bridge result: a case-insensitive
    result-level match, and a case-sensitive phrase-level membership test. *)
Definition bridge_user_matching (ul : option (list string)) (r : SwitchPrintResult) : Prop :=
  (r.(user_language_match) = true <->
   exists us u d, ul = Some us /\ In u us /\ In d r.(detected_languages) /\
     PyStr.lower u = PyStr.lower d) /\
  Forall (fun p =>
    truthy (isUserLanguage p) = true <-> exists us, ul = Some us /\ In (planguage p) us)
    r.(phrases).

Lemma bridge_user_matching_of : forall ul conf toks r,
  r.(user_language_match) = user_lang_match ul r.(detected_languages) ->
  r.(phrases) = group_phrases conf ul toks ->
  bridge_user_matching ul r.
Proof.
  intros ul conf toks r Hm Hp. split.
  - rewrite Hm. apply user_lang_match_iff.
  - rewrite Hp. eapply Forall_impl; [|apply group_phrases_user].
    intros p Hu. rewrite Hu. apply is_user_language_iff.
Qed.

Lemma group_not_user : forall rest cur,
  Forall (fun p => Worker.wp_isUserLanguage p = false) (Worker.group cur rest).
Proof.
  induction rest as [|t rest IH]; intros cur; simpl.
  - destruct cur; repeat constructor.
  - destruct (rev cur) as [|lt r]; [apply IH|].
    destruct (String.eqb _ _); [apply IH|constructor; [reflexivity|apply IH]].
Qed.

(** Detector results naming the language 'english'. *)
Definition english_integrated : IntegratedResult :=
  mkIntegratedResult (Some (9 # 10)) None None None None (Some ["english"]) None.

Definition english_legacy : LegacyResult :=
  mkLegacyResult (Some ["english"]) (Some (8 # 10)) None.

(** C5 (code bug): in the primary and the legacy conversions
    [userLanguageMatch] holds iff some user language, lower-cased, equals
    some detected language, lower-cased, but a phrase's [isUserLanguage]
    is the case-sensitive test [user_languages and language in
    user_languages]: truthy exactly when the phrase language is in the list
    as written.  The mock result sets [userLanguageMatch] and every
    [isUserLanguage] to true, also for an empty list.  The worker sets every
    [isUserLanguage] to false (no caller sets it), and its
    [userLanguageMatch] holds iff the user list is non-empty and the code of
    the top prediction is among the normalised user languages.  So with the
    user language 'English' and the detected language 'english', both
    conversions report a user-language match and yet no phrase in the
    user's language; the worker does the same for 'English' on "hello"; and
    the mock reports a match for an empty user list. *)
Theorem C5_user_language_matching :
  (forall sp opt text ul elapsed mode,
     bridge_user_matching ul (convert_v2_1_2_result sp opt text ul elapsed mode)) /\
  (forall sp text ul elapsed,
     bridge_user_matching ul (convert_legacy_result sp text ul elapsed)) /\
  (forall text ul elapsed err,
     let r := get_mock_result text ul elapsed err in
     r.(user_language_match) = true /\
     Forall (fun p => isUserLanguage p = PyBool true) r.(phrases)) /\
  (forall predict text ul,
     match Worker.detect_language (Some predict) text ul with
     | Worker.RDetection d =>
         Forall (fun p => Worker.wp_isUserLanguage p = false) d.(Worker.d_phrases) /\
         (d.(Worker.d_userLanguageMatch) = true <->
          ul <> [] /\
          exists label c rest, predict (Worker.clean text) 5%nat = (label, c) :: rest /\
            In (Worker.strip_label label) (map Worker.normalize_language ul))
     | Worker.RError _ => True
     end) /\
  (let r := convert_v2_1_2_result english_integrated None "hello world" (Some ["English"])
              0 "balanced" in
   r.(user_language_match) = true /\
   map (fun p => (planguage p, truthy (isUserLanguage p))) r.(phrases)
     = [("english", false)]) /\
  (let r := convert_legacy_result english_legacy "hello world" (Some ["English"]) 0 in
   r.(user_language_match) = true /\
   map (fun p => (planguage p, truthy (isUserLanguage p))) r.(phrases)
     = [("english", false)]) /\
  match Worker.detect_language (Some demo_model) "hello" ["English"] with
  | Worker.RDetection d =>
      d.(Worker.d_userLanguageMatch) = true /\
      map (fun p => (Worker.wp_language p, Worker.wp_isUserLanguage p)) d.(Worker.d_phrases)
        = [("English", false)]
  | Worker.RError _ => False
  end /\
  (get_mock_result "hello world" (Some []) 0 None).(user_language_match) = true.
Proof.
  split; [|split; [|split; [|split]]].
  - intros. eapply bridge_user_matching_of; reflexivity.
  - intros. eapply bridge_user_matching_of; reflexivity.
  - intros. split; [reflexivity|repeat constructor].
  - intros predict text ul. unfold Worker.detect_language.
    destruct (String.eqb (Worker.clean text) ""); [exact I|].
    split.
    + unfold Worker.group_tokens. destruct (map _ _); [constructor|apply group_not_user].
    + simpl. destruct (predict (Worker.clean text) 5%nat) as [|[label c] rest] eqn:Hp;
        destruct ul as [|u ul]; cbn [map Worker.d_userLanguageMatch].
      * split; [discriminate|]. intros [H _]. congruence.
      * split; [discriminate|]. intros [_ [l [c' [r' [H _]]]]]. discriminate.
      * split; [discriminate|]. intros [H _]. congruence.
      * split.
        -- intros H. split; [discriminate|].
           exists label, c, rest. split; [reflexivity|].
           apply existsb_exists in H as [x [Hx E]].
           apply String.eqb_eq in E. subst x. exact Hx.
        -- intros [_ [l [c' [r' [H Hin]]]]]. injection H as E1 E2 E3. subst.
           apply existsb_exists. eexists.
           split; [exact Hin|apply String.eqb_refl].
  - vm_compute. repeat split; reflexivity.
Qed.

(* ------------------------------------------------------------------ *)
(** ** The FIFO result cache *)

Lemma dict_set_absent : forall {V} k (v : V) c,
  dict_get k c = None -> dict_set k v c = c ++ [(k, v)].
Proof.
  intros V k v c. induction c as [|[k' v'] c IH]; simpl; [reflexivity|].
  destruct (String.eqb k k'); [discriminate|]. intros H. rewrite IH; auto.
Qed.

Lemma dict_get_app_absent : forall {V} k (v : V) c,
  dict_get k c = None -> dict_get k (c ++ [(k, v)]) = Some v.
Proof.
  intros V k v c. induction c as [|[k' v'] c IH]; simpl.
  - rewrite String.eqb_refl. reflexivity.
  - destruct (String.eqb k k'); [discriminate|]. exact IH.
Qed.

Lemma dict_get_skipn : forall {V} k n (c : Dict V),
  dict_get k c = None -> dict_get k (skipn n c) = None.
Proof.
  intros V k n. induction n as [|n IH]; intros c H; [exact H|].
  destruct c as [|[k' v'] c]; [reflexivity|]. simpl in *.
  destruct (String.eqb k k'); [discriminate|]. apply IH, H.
Qed.

Lemma dict_set_present_keys : forall {V} k (v v' : V) c,
  dict_get k c = Some v -> map fst (dict_set k v' c) = map fst c.
Proof.
  intros V k v v' c. induction c as [|[k' w] c IH]; simpl; [discriminate|].
  destruct (String.eqb_spec k k') as [->|]; simpl; [reflexivity|].
  intros H. rewrite (IH H). reflexivity.
Qed.

Lemma evict_app_last : forall (c : Dict SwitchPrintResult) x,
  length c <= CACHE_CEILING ->
  evict (c ++ [x]) = if (CACHE_CEILING <? length (c ++ [x]))%nat
                     then skipn CACHE_EVICT c ++ [x] else c ++ [x].
Proof.
  intros c x Hc. unfold evict.
  destruct (CACHE_CEILING <? length (c ++ [x]))%nat eqn:E; [|reflexivity].
  apply Nat.ltb_lt in E. rewrite length_app in E. simpl in E.
  rewrite skipn_app. unfold CACHE_EVICT, CACHE_CEILING in *.
  replace (100 - length c) with 0 by lia. reflexivity.
Qed.

Lemma evict_keeps_new : forall c k (r : SwitchPrintResult),
  length c <= CACHE_CEILING -> dict_get k c = None ->
  dict_get k (evict (c ++ [(k, r)])) = Some r /\ In (k, r) (evict (c ++ [(k, r)])).
Proof.
  intros c k r Hc Hk. rewrite evict_app_last by exact Hc.
  destruct (_ <? _)%nat.
  - split; [apply dict_get_app_absent, dict_get_skipn, Hk|].
    apply in_or_app. right. left. reflexivity.
  - split; [apply dict_get_app_absent, Hk|].
    apply in_or_app. right. left. reflexivity.
Qed.

Lemma evict_length : forall c x,
  length c <= CACHE_CEILING -> length (evict (c ++ [x])) <= CACHE_CEILING.
Proof.
  intros c x Hc. rewrite evict_app_last by exact Hc.
  destruct (_ <? _)%nat eqn:E.
  - rewrite length_app, length_skipn. simpl.
    unfold CACHE_EVICT, CACHE_CEILING in *. lia.
  - apply Nat.ltb_ge in E. exact E.
Qed.

(** All fields of two results but [cache_hit] and [processing_time_ms]. *)
Definition same_payload (r1 r2 : SwitchPrintResult) : Prop :=
  r1.(tokens) = r2.(tokens) /\ r1.(phrases) = r2.(phrases) /\
  r1.(switch_points) = r2.(switch_points) /\ r1.(confidence) = r2.(confidence) /\
  r1.(user_language_match) = r2.(user_language_match) /\
  r1.(detected_languages) = r2.(detected_languages) /\
  r1.(calibrated_confidence) = r2.(calibrated_confidence) /\
  r1.(reliability_score) = r2.(reliability_score) /\
  r1.(quality_assessment) = r2.(quality_assessment) /\
  r1.(calibration_method) = r2.(calibration_method) /\
  r1.(context_optimization) = r2.(context_optimization) /\
  r1.(performance_mode) = r2.(performance_mode) /\
  r1.(version) = r2.(version).

(** A primary detector that answers. *)
Definition primary_ok (D : Detectors) : bool :=
  match D.(integrated_detector) with Some (Ok _) => true | _ => false end.

Definition is_none {A} (o : option A) : bool :=
  match o with None => true | Some _ => false end.

(** The call stores its result: caching on, a miss, and the primary tier. *)
Definition stores (D : Detectors) (uc : bool) (key : string) (s : Service) : bool :=
  uc && is_none (dict_get key s.(cache)) && primary_ok D.

(** A primary detector result naming one language, and a legacy one. *)
Definition sample_integrated : IntegratedResult :=
  mkIntegratedResult (Some (9 # 10)) None None None None (Some ["english"]) None.

Definition sample_legacy : LegacyResult :=
  mkLegacyResult (Some ["english"]) (Some (8 # 10)) None.

Definition primary_detectors : Detectors :=
  mkDetectors (Some (Ok sample_integrated)) None None None None None.

Definition legacy_detectors : Detectors :=
  mkDetectors None None None None (Some (Ok sample_legacy)) None.

(** C6 (amended): a cache miss answered by the primary tier, with caching
    on, stores its result (cache_hit false); the next call with the same
    text, the same user-language list in the same order and the same mode
    returns the stored result with cache_hit true, the new processing time
    and every other field unchanged.  A miss answered by the fallback chain
    (legacy or mock) stores nothing. *)
Theorem C6_cache_primary_roundtrip :
  (forall (D D2 : Detectors) (el1 el2 : Q) (text : string)
          (ul : option (list string)) (fm fm2 : bool) (mode : string)
          (s : Service) (sp : IntegratedResult),
     length s.(cache) <= CACHE_CEILING ->
     dict_get (cache_key text ul mode) s.(cache) = None ->
     D.(integrated_detector) = Some (Ok sp) ->
     exists r1 s1 s2,
       analyze_text D el1 text ul true fm mode s = (Ok r1, s1) /\
       r1.(cache_hit) = false /\
       analyze_text D2 el2 text ul true fm2 mode s1 = (Ok (mark_cache_hit r1 el2), s2) /\
       (mark_cache_hit r1 el2).(cache_hit) = true /\
       (mark_cache_hit r1 el2).(processing_time_ms) = el2 /\
       same_payload r1 (mark_cache_hit r1 el2)) /\
  (forall (D : Detectors) (el : Q) (text : string) (ul : option (list string))
          (fm : bool) (mode : string) (s : Service),
     primary_ok D = false ->
     dict_get (cache_key text ul mode) s.(cache) = None ->
     exists r, analyze_text D el text ul true fm mode s = (Ok r, counted s)).
Proof.
  split.
  - intros D D2 el1 el2 text ul fm fm2 mode s sp Hlen Hg Hi.
    set (r1 := convert_v2_1_2_result sp (enrich_value D.(context_optimizer))
                 text ul el1 mode).
    set (c1 := evict (dict_set (cache_key text ul mode) r1 s.(cache))).
    exists r1, (mkService c1 s.(cache_hits) (S s.(total_requests))).
    eexists. split.
    { rewrite analyze_text_eq. simpl. rewrite Hg, Hi. reflexivity. }
    split; [reflexivity|]. split.
    { rewrite analyze_text_eq. simpl.
      assert (Hc1 : dict_get (cache_key text ul mode) c1 = Some r1).
      { subst c1. rewrite dict_set_absent by exact Hg.
        apply evict_keeps_new; assumption. }
      rewrite Hc1. reflexivity. }
    split; [reflexivity|]. split; [reflexivity|].
    repeat split.
  - intros D el text ul fm mode s Hp Hg.
    rewrite analyze_text_eq. simpl. rewrite Hg.
    unfold primary_ok in Hp.
    destruct (integrated_detector D) as [[sp|e]|]; [discriminate| |];
      eexists; reflexivity.
Qed.

Lemma C6_cache_primary_roundtrip_witness :
  (exists r1 s1 s2,
     analyze_text primary_detectors 0 "hi" (Some ["en"; "es"]) true false
       "balanced" init_service = (Ok r1, s1) /\
     r1.(cache_hit) = false /\
     analyze_text no_detectors 1 "hi" (Some ["en"; "es"]) true false
       "balanced" s1 = (Ok (mark_cache_hit r1 1), s2) /\
     (mark_cache_hit r1 1).(cache_hit) = true /\
     (mark_cache_hit r1 1).(processing_time_ms) = 1%Q /\
     same_payload r1 (mark_cache_hit r1 1)) /\
  (exists r, analyze_text legacy_detectors 0 "hi" None true false "balanced"
               init_service = (Ok r, counted init_service)).
Proof.
  split.
  - apply (proj1 C6_cache_primary_roundtrip primary_detectors no_detectors 0%Q 1%Q
             "hi" (Some ["en"; "es"]) false false "balanced" init_service
             sample_integrated); [simpl; lia|reflexivity|reflexivity].
  - apply (proj2 C6_cache_primary_roundtrip legacy_detectors 0%Q "hi" None false
             "balanced" init_service); reflexivity.
Defined.

(** C6 (counterexample): the same user languages in another order miss the
    cache, and a legacy-tier answer is never cached. *)
Lemma C6_cache_counterexample :
  match fst (analyze_text primary_detectors 1 "hi" (Some ["es"; "en"]) true false
               "balanced"
               (snd (analyze_text primary_detectors 0 "hi" (Some ["en"; "es"])
                       true false "balanced" init_service))) with
  | Ok r => r.(cache_hit) = false
  | Exn _ => False
  end /\
  match fst (analyze_text legacy_detectors 1 "hi" None true false "balanced"
               (snd (analyze_text legacy_detectors 0 "hi" None true false
                       "balanced" init_service))) with
  | Ok r => r.(cache_hit) = false
  | Exn _ => False
  end.
Proof.
  vm_compute. split; reflexivity.
Qed.

(** C7: from a cache of at most 1000 entries, a call that stores its
    result appends it last and, when that makes 1001 entries, removes the
    100 oldest-inserted ones in one batch, the new entry surviving; any
    other call (hits included) leaves the keys and their order unchanged.
    So the cache never holds more than 1000 entries after a call. *)
Theorem C7_fifo_eviction : forall (D : Detectors) (el : Q) (text : string)
  (ul : option (list string)) (uc fm : bool) (mode : string) (s : Service),
  length s.(cache) <= CACHE_CEILING ->
  let key := cache_key text ul mode in
  exists r s', analyze_text D el text ul uc fm mode s = (Ok r, s') /\
    length s'.(cache) <= CACHE_CEILING /\
    if stores D uc key s
    then s'.(cache) = evict (s.(cache) ++ [(key, r)]) /\ In (key, r) s'.(cache) /\
         (length s.(cache) = CACHE_CEILING ->
          s'.(cache) = skipn CACHE_EVICT s.(cache) ++ [(key, r)])
    else map fst s'.(cache) = map fst s.(cache).
Proof.
  intros D el text ul uc fm mode s Hlen key.
  rewrite analyze_text_eq. fold key. unfold stores, primary_ok.
  destruct uc; simpl.
  - destruct (dict_get key (cache s)) as [cached|] eqn:Hg; simpl.
    + eexists; eexists. split; [reflexivity|]. simpl.
      pose proof (dict_set_present_keys key cached (mark_cache_hit cached el) _ Hg) as Hk.
      split; [|exact Hk].
      rewrite <- (length_map fst), Hk, length_map. exact Hlen.
    + destruct (integrated_detector D) as [[sp|e]|]; simpl.
      * eexists; eexists. split; [reflexivity|]. simpl.
        rewrite dict_set_absent by exact Hg.
        split; [apply evict_length, Hlen|].
        split; [reflexivity|]. split; [apply evict_keeps_new; assumption|].
        intros Heq. rewrite evict_app_last by exact Hlen.
        rewrite length_app, Heq. reflexivity.
      * eexists; eexists. split; [reflexivity|]. simpl. auto.
      * eexists; eexists. split; [reflexivity|]. simpl. auto.
  - destruct (integrated_detector D) as [[sp|e]|]; eexists; eexists;
      (split; [reflexivity|]); simpl; auto.
Qed.

(** A full cache: 1000 entries under the keys "k0" .. "k999", in
    insertion order. *)
Definition entry_key (n : nat) : string :=
  ("k" ++ DecimalString.NilZero.string_of_uint (Nat.to_uint n))%string.

Definition full_service : Service :=
  mkService (map (fun n => (entry_key n, get_mock_result "x" None 0 None)) (seq 0 1000))
    0 1000.

Lemma C7_fifo_eviction_witness :
  length full_service.(cache) <= CACHE_CEILING /\
  length full_service.(cache) = CACHE_CEILING /\
  stores primary_detectors true (cache_key "hi" None "balanced") full_service = true /\
  exists r s', analyze_text primary_detectors 0 "hi" None true false "balanced"
                 full_service = (Ok r, s') /\
    length s'.(cache) = 901 /\
    map fst s'.(cache) = map entry_key (seq 100 900) ++ [cache_key "hi" None "balanced"].
Proof.
  assert (Hle : length full_service.(cache) <= CACHE_CEILING) by (vm_compute; lia).
  assert (Heq : length full_service.(cache) = CACHE_CEILING) by (vm_compute; reflexivity).
  assert (Hs : stores primary_detectors true (cache_key "hi" None "balanced") full_service
               = true) by (vm_compute; reflexivity).
  split; [exact Hle|]. split; [exact Heq|]. split; [exact Hs|].
  destruct (C7_fifo_eviction primary_detectors 0%Q "hi" None true false "balanced"
              full_service Hle) as [r [s' [Ha [_ Hif]]]].
  cbv zeta in Hif. rewrite Hs in Hif. destruct Hif as [_ [_ Hev]].
  exists r, s'. split; [exact Ha|].
  rewrite (Hev Heq). split.
  - rewrite length_app, length_skipn, Heq. reflexivity.
  - rewrite map_app. cbn [map fst]. f_equal; vm_compute; reflexivity.
Defined.

(* ------------------------------------------------------------------ *)
(** ** The language-assignment walk *)

(** From the claim: the number of supplied switch-point indices among the
    word positions [i .. i + k], i.e. how often the language index has
    been asked to advance when word [i + k] is reached. *)
Definition advances (sps : list Z) (i k : nat) : nat :=
  length (filter (fun j => mem_Z (Z.of_nat j) sps) (seq i (S k))).

Definition bit (b : bool) : nat := if b then 1 else 0.

Lemma advances_0 : forall sps i,
  advances sps i 0 = bit (mem_Z (Z.of_nat i) sps).
Proof.
  intros. unfold advances, bit. simpl. destruct (mem_Z _ _); reflexivity.
Qed.

Lemma advances_S : forall sps i k,
  advances sps i (S k) = bit (mem_Z (Z.of_nat i) sps) + advances sps (S i) k.
Proof.
  intros. unfold advances, bit.
  change (seq i (S (S k))) with (i :: seq (S i) (S k)). simpl.
  destruct (mem_Z _ _); reflexivity.
Qed.

Lemma map_seq_shift : forall {A} (f : nat -> A) n,
  map f (seq 1 n) = map (fun k => f (S k)) (seq 0 n).
Proof.
  intros. rewrite <- seq_shift, map_map. reflexivity.
Qed.

Lemma assign_cyclic_spec : forall dl sps conf ws i idx,
  dl <> [] -> idx < length dl ->
  map lang (assign_cyclic dl sps conf i idx ws) =
  map (fun k => nth ((idx + advances sps i k) mod length dl) dl "")
      (seq 0 (length ws)).
Proof.
  intros dl sps conf ws. induction ws as [|w ws IH]; intros i idx Hdl Hidx;
    [reflexivity|].
  assert (Hn : length dl <> 0) by (destruct dl; simpl; congruence).
  cbn [assign_cyclic map length]. rewrite <- cons_seq, map_cons.
  set (idx' := if negb (is_nil sps) && mem_Z (Z.of_nat i) sps
               then (idx + 1) mod length dl else idx).
  assert (Hidx' : idx' < length dl).
  { subst idx'. destruct (_ && _); [apply Nat.mod_upper_bound, Hn|exact Hidx]. }
  f_equal.
  - simpl. destruct dl as [|d dl']; [congruence|].
    rewrite advances_0. unfold bit. subst idx'.
    destruct (mem_Z (Z.of_nat i) sps) eqn:Hm.
    + destruct sps; [discriminate|]. reflexivity.
    + rewrite andb_false_r, Nat.add_0_r, Nat.mod_small by exact Hidx.
      reflexivity.
  - rewrite (IH (S i) idx' Hdl Hidx'), map_seq_shift.
    apply map_ext. intros k. rewrite advances_S. unfold bit. subst idx'.
    destruct (mem_Z (Z.of_nat i) sps) eqn:Hm.
    + destruct sps; [discriminate|]. simpl.
      rewrite Nat.Div0.add_mod_idemp_l. f_equal. f_equal. lia.
    + rewrite andb_false_r. simpl. reflexivity.
Qed.

Lemma assign_clamp_spec : forall dl sps conf ws i idx,
  dl <> [] -> idx <= length dl - 1 ->
  map lang (assign_clamp dl sps conf i idx ws) =
  map (fun k => nth (Nat.min (idx + advances sps i k) (length dl - 1)) dl "")
      (seq 0 (length ws)).
Proof.
  intros dl sps conf ws. induction ws as [|w ws IH]; intros i idx Hdl Hidx;
    [reflexivity|].
  assert (Hn : length dl <> 0) by (destruct dl; simpl; congruence).
  cbn [assign_clamp map length]. rewrite <- cons_seq, map_cons.
  set (idx' := if mem_Z (Z.of_nat i) sps
                  && (Z.of_nat idx <? Z.of_nat (length dl) - 1)%Z
               then S idx else idx).
  assert (Hv : idx' = Nat.min (idx + bit (mem_Z (Z.of_nat i) sps)) (length dl - 1)).
  { subst idx'. unfold bit. destruct (mem_Z _ _); simpl; [|lia].
    destruct (Z.ltb_spec (Z.of_nat idx) (Z.of_nat (length dl) - 1)); lia. }
  assert (Hidx' : idx' <= length dl - 1) by lia.
  f_equal.
  - simpl. rewrite advances_0, <- Hv.
    destruct (Nat.ltb_spec idx' (length dl)); [reflexivity|lia].
  - rewrite (IH (S i) idx' Hdl Hidx'), map_seq_shift.
    apply map_ext. intros k. rewrite advances_S. f_equal. rewrite Hv. lia.
Qed.

Lemma assign_single_spec : forall dl conf ws,
  map lang (assign_single dl conf ws) = map (fun _ => hd "unknown" dl) ws.
Proof.
  intros. unfold assign_single. rewrite map_map. destruct dl; reflexivity.
Qed.

(** Claim C8: in the primary conversion the language of word [k] is
    [detected_languages[advances mod len]] (cyclic walk from index 0); in
    the legacy conversion it is [detected_languages[min advances (len-1)]]
    (walk clamped at the last language); when at most one language was
    detected or no switch points were supplied, every word gets the first
    detected language ([unknown] when the list is empty). *)
Theorem C8_language_walk :
  (forall sp opt text ul elapsed mode,
     let dl := getattr sp.(ir_detected_languages) ["unknown"] in
     let sps := getattr sp.(ir_switch_points) [] in
     let words := PyStr.split text in
     map lang (tokens (convert_v2_1_2_result sp opt text ul elapsed mode)) =
     if (1 <? length dl) && negb (is_nil sps)
     then map (fun k => nth (advances sps 0 k mod length dl) dl "")
              (seq 0 (length words))
     else map (fun _ => hd "unknown" dl) words) /\
  (forall sp text ul elapsed,
     let dl := getattr sp.(lr_detected_languages) ["unknown"] in
     let sps := match sp.(lr_switch_points) with
                | Some l => extract_switch_points l
                | None => []
                end in
     let words := PyStr.split text in
     map lang (tokens (convert_legacy_result sp text ul elapsed)) =
     if (1 <? length dl) && negb (is_nil sps)
     then map (fun k => nth (Nat.min (advances sps 0 k) (length dl - 1)) dl "")
              (seq 0 (length words))
     else map (fun _ => hd "unknown" dl) words).
Proof.
  split.
  - intros sp opt text ul elapsed mode dl sps words.
    unfold convert_v2_1_2_result; cbn [tokens]. fold dl sps words.
    destruct ((1 <? length dl) && negb (is_nil sps)) eqn:E.
    + apply andb_prop in E as [E _]. apply Nat.ltb_lt in E.
      apply assign_cyclic_spec; [destruct dl; simpl in *; [lia|discriminate]|lia].
    + apply assign_single_spec.
  - intros sp text ul elapsed dl sps words.
    unfold convert_legacy_result; cbn [tokens]. fold dl sps words.
    destruct ((1 <? length dl) && negb (is_nil sps)) eqn:E.
    + apply andb_prop in E as [E _]. apply Nat.ltb_lt in E.
      apply assign_clamp_spec; [destruct dl; simpl in *; [lia|discriminate]|lia].
    + apply assign_single_spec.
Qed.

(* ------------------------------------------------------------------ *)
(** ** The worker's request loop *)

Section WorkerLoopProps.

Import WorkerLoop.

Variable json_loads : string -> PyExc + JSON.
Variable detect : JSON -> JSON -> JSON.

Lemma serve_app : forall l1 l2,
  serve json_loads detect (l1 ++ l2) =
  serve json_loads detect l1 ++ serve json_loads detect l2.
Proof.
  induction l1 as [|raw l1 IH]; intros l2; [reflexivity|].
  simpl. destruct (String.eqb (PyStr.strip raw) ""); rewrite IH;
    [reflexivity|apply app_assoc].
Qed.

Lemma serve_one : forall raw,
  PyStr.strip raw <> ""%string ->
  serve json_loads detect [raw] =
  match body json_loads detect (PyStr.strip raw) with
  | inr evs => evs
  | inl (JSONDecodeError m) =>
      [Print (error_obj ("Invalid JSON: " ++ m)%string); Flush]
  | inl (OtherError m) =>
      [Print (error_obj ("Processing failed: " ++ m)%string); Flush]
  end.
Proof.
  intros raw H. simpl. apply String.eqb_neq in H. rewrite H, app_nil_r.
  reflexivity.
Qed.

Lemma body_one_response : forall line evs,
  body json_loads detect line = inr evs -> exists r, evs = [Print r; Flush].
Proof.
  intros line evs H. unfold body in H.
  destruct (json_loads line) as [e|[| | | | | |kvs]]; try discriminate.
  injection H as <-. eexists. reflexivity.
Qed.

End WorkerLoopProps.

(** Claim C9: for any [json.loads] and any detector, the worker's loop
    answers line by line ([serve] of a concatenation is the concatenation
    of the answers); a blank line gets no response; a non-blank line that
    fails to parse gets exactly one [{"error": "Invalid JSON: ..."}] line
    followed by a flush; a parsed request whose [text] is missing or empty
    gets [{"error": "No text provided"}] and a flush; and every non-blank
    line gets exactly one printed response followed by a flush. *)
Theorem C9_worker_request_loop :
  forall (json_loads : string -> WorkerLoop.PyExc + WorkerLoop.JSON)
         (detect : WorkerLoop.JSON -> WorkerLoop.JSON -> WorkerLoop.JSON),
  let serve := WorkerLoop.serve json_loads detect in
  (forall l1 l2, serve (l1 ++ l2) = serve l1 ++ serve l2) /\
  (forall raw, PyStr.strip raw = ""%string -> serve [raw] = []) /\
  (forall raw m,
     PyStr.strip raw <> ""%string ->
     json_loads (PyStr.strip raw) = inl (WorkerLoop.JSONDecodeError m) ->
     serve [raw] =
       [WorkerLoop.Print (WorkerLoop.error_obj ("Invalid JSON: " ++ m)%string);
        WorkerLoop.Flush]) /\
  (forall raw kvs,
     PyStr.strip raw <> ""%string ->
     json_loads (PyStr.strip raw) = inr (WorkerLoop.JObj kvs) ->
     WorkerLoop.obj_get "text" kvs (WorkerLoop.JStr "") = WorkerLoop.JStr "" ->
     serve [raw] =
       [WorkerLoop.Print (WorkerLoop.error_obj "No text provided");
        WorkerLoop.Flush]) /\
  (forall raw,
     PyStr.strip raw <> ""%string ->
     exists r, serve [raw] = [WorkerLoop.Print r; WorkerLoop.Flush]).
Proof.
  intros json_loads detect serve. subst serve.
  split; [|split; [|split; [|split]]].
  - apply serve_app.
  - intros raw H. simpl. rewrite H. reflexivity.
  - intros raw m Hne Hj. rewrite (serve_one json_loads detect raw Hne).
    unfold WorkerLoop.body. rewrite Hj. reflexivity.
  - intros raw kvs Hne Hj Ht. rewrite (serve_one json_loads detect raw Hne).
    unfold WorkerLoop.body. rewrite Hj, Ht. reflexivity.
  - intros raw Hne. rewrite (serve_one json_loads detect raw Hne).
    destruct (WorkerLoop.body json_loads detect (PyStr.strip raw)) as [[m|m]|evs] eqn:Hb.
    + eexists. reflexivity.
    + eexists. reflexivity.
    + apply body_one_response in Hb. exact Hb.
Qed.

(** A sample [json.loads]: [x] is malformed, [{}] is an empty object and
    any other line is an object whose [text] is the line. *)
Definition sample_loads (line : string) : WorkerLoop.PyExc + WorkerLoop.JSON :=
  if String.eqb line "x" then inl (WorkerLoop.JSONDecodeError "Expecting value")
  else if String.eqb line "{}" then inr (WorkerLoop.JObj [])
  else inr (WorkerLoop.JObj [("text", WorkerLoop.JStr line)]).

Definition sample_detect (text languages : WorkerLoop.JSON) : WorkerLoop.JSON :=
  WorkerLoop.JObj [("detected", text)].

Lemma C9_worker_request_loop_witness :
  WorkerLoop.serve sample_loads sample_detect [" x "; "x"; "   "; "{}"; "hi"] =
    WorkerLoop.serve sample_loads sample_detect [" x "] ++
    WorkerLoop.serve sample_loads sample_detect ["x"; "   "; "{}"; "hi"] /\
  (PyStr.strip "   " = ""%string /\
   WorkerLoop.serve sample_loads sample_detect ["   "] = []) /\
  (PyStr.strip " x " <> ""%string /\
   sample_loads (PyStr.strip " x ") = inl (WorkerLoop.JSONDecodeError "Expecting value") /\
   WorkerLoop.serve sample_loads sample_detect [" x "] =
     [WorkerLoop.Print (WorkerLoop.error_obj "Invalid JSON: Expecting value");
      WorkerLoop.Flush]) /\
  (PyStr.strip "{}" <> ""%string /\
   sample_loads (PyStr.strip "{}") = inr (WorkerLoop.JObj []) /\
   WorkerLoop.obj_get "text" [] (WorkerLoop.JStr "") = WorkerLoop.JStr "" /\
   WorkerLoop.serve sample_loads sample_detect ["{}"] =
     [WorkerLoop.Print (WorkerLoop.error_obj "No text provided");
      WorkerLoop.Flush]) /\
  (PyStr.strip "hi" <> ""%string /\
   exists r, WorkerLoop.serve sample_loads sample_detect ["hi"] =
     [WorkerLoop.Print r; WorkerLoop.Flush]).
Proof.
  destruct (C9_worker_request_loop sample_loads sample_detect)
    as [Happ [Hblank [Hbad [Hnotext Hone]]]].
  assert (Hx : PyStr.strip " x " <> ""%string) by (vm_compute; discriminate).
  assert (Hb : PyStr.strip "   " = ""%string) by (vm_compute; reflexivity).
  assert (He : PyStr.strip "{}" <> ""%string) by (vm_compute; discriminate).
  assert (Hh : PyStr.strip "hi" <> ""%string) by (vm_compute; discriminate).
  split; [apply (Happ [" x "] ["x"; "   "; "{}"; "hi"])|].
  split; [split; [exact Hb|apply Hblank; exact Hb]|].
  split; [split; [exact Hx|split; [vm_compute; reflexivity|]]|].
  { apply Hbad; [exact Hx|vm_compute; reflexivity]. }
  split; [split; [exact He|split; [vm_compute; reflexivity|split; [vm_compute; reflexivity|]]]|].
  { apply Hnotext with (kvs := []); [exact He|vm_compute; reflexivity|vm_compute; reflexivity]. }
  split; [exact Hh|apply Hone; exact Hh].
Defined.

(* ------------------------------------------------------------------ *)
(** ** The request counters *)

(** The service states reachable from the constructor by any sequence of
    [analyze_text] calls (on any detectors and inputs) and [clear_cache]
    calls. *)
Inductive reachable : Service -> Prop :=
| reach_init : reachable init_service
| reach_analyze : forall D elapsed text ul uc fm mode s,
    reachable s -> reachable (snd (analyze_text D elapsed text ul uc fm mode s))
| reach_clear : forall s, reachable s -> reachable (snd (clear_cache s)).

Lemma clear_cache_counters : forall s,
  cache_hits (snd (clear_cache s)) = cache_hits s /\
  total_requests (snd (clear_cache s)) = total_requests s.
Proof. intros [c h t]. split; reflexivity. Qed.

Lemma analyze_text_counters : forall D elapsed text ul uc fm mode s,
  let s' := snd (analyze_text D elapsed text ul uc fm mode s) in
  total_requests s' = S (total_requests s) /\
  (cache_hits s' = cache_hits s \/ cache_hits s' = S (cache_hits s)).
Proof.
  intros D elapsed text ul uc fm mode s s'. subst s'.
  rewrite analyze_text_eq.
  destruct (if uc then _ else None); [simpl; auto|].
  destruct (integrated_detector D) as [[sp|e]|]; simpl; auto.
  destruct uc; simpl; auto.
Qed.

Lemma hits_le_total : forall s, reachable s -> cache_hits s <= total_requests s.
Proof.
  induction 1 as [|D elapsed text ul uc fm mode s _ IH|s _ IH].
  - simpl. lia.
  - destruct (analyze_text_counters D elapsed text ul uc fm mode s) as [Ht [Hh|Hh]];
      rewrite Ht, Hh; lia.
  - destruct (clear_cache_counters s) as [Hh Ht]. rewrite Hh, Ht. exact IH.
Qed.

Lemma hit_rate_bounds : forall h t, h <= t ->
  (0 <= inject_Z (Z.of_nat h) / inject_Z (Z.of_nat (Nat.max t 1)) <= 1)%Q.
Proof.
  intros h t H.
  assert (Hm : (0 < inject_Z (Z.of_nat (Nat.max t 1)))%Q).
  { change 0%Q with (inject_Z 0). rewrite <- Zlt_Qlt. lia. }
  split.
  - apply Qle_shift_div_l; [exact Hm|]. rewrite Qmult_0_l.
    change 0%Q with (inject_Z 0). rewrite <- Zle_Qle. lia.
  - apply Qle_shift_div_r; [exact Hm|]. rewrite Qmult_1_l.
    rewrite <- Zle_Qle. lia.
Qed.

(** Claim C10: in every reachable state [cache_hits <= total_requests];
    the divisor [max(total_requests, 1)] of [get_cache_stats] is positive,
    so the hit rate is defined and lies in [0, 1]; each [analyze_text]
    call increments [total_requests] and increments [cache_hits] by at most
    one; [clear_cache] changes neither counter. *)
Theorem C10_cache_stats_invariant :
  (forall s available, reachable s ->
     cache_hits s <= total_requests s /\
     (0 < inject_Z (Z.of_nat (Nat.max (total_requests s) 1)))%Q /\
     (0 <= st_hit_rate (get_cache_stats available s) <= 1)%Q) /\
  (forall D elapsed text ul uc fm mode s,
     let s' := snd (analyze_text D elapsed text ul uc fm mode s) in
     total_requests s' = S (total_requests s) /\
     cache_hits s' <= S (cache_hits s)) /\
  (forall s,
     cache_hits (snd (clear_cache s)) = cache_hits s /\
     total_requests (snd (clear_cache s)) = total_requests s).
Proof.
  split; [|split].
  - intros s available Hr. pose proof (hits_le_total s Hr) as H.
    split; [exact H|split].
    + change 0%Q with (inject_Z 0). rewrite <- Zlt_Qlt. lia.
    + apply hit_rate_bounds, H.
  - intros D elapsed text ul uc fm mode s s'. subst s'.
    destruct (analyze_text_counters D elapsed text ul uc fm mode s) as [Ht Hh].
    split; [exact Ht|destruct Hh as [-> | ->]; lia].
  - apply clear_cache_counters.
Qed.

(** A state reached by a cache miss, a cache hit and a cache clear. *)
Definition sample_state : Service :=
  let s1 := snd (analyze_text primary_detectors 0 "hola world" None true false
                   "balanced" init_service) in
  let s2 := snd (analyze_text primary_detectors 0 "hola world" None true false
                   "balanced" s1) in
  snd (clear_cache s2).

Lemma sample_state_reachable : reachable sample_state.
Proof.
  unfold sample_state. apply reach_clear, reach_analyze, reach_analyze, reach_init.
Qed.

Lemma C10_cache_stats_invariant_witness :
  reachable sample_state /\
  cache_hits sample_state = 1 /\ total_requests sample_state = 2 /\
  (0 <= st_hit_rate (get_cache_stats true sample_state) <= 1)%Q.
Proof.
  split; [exact sample_state_reachable|].
  split; [vm_compute; reflexivity|split; [vm_compute; reflexivity|]].
  destruct C10_cache_stats_invariant as [Hinv _].
  apply (Hinv sample_state true sample_state_reachable).
Defined.

(* ------------------------------------------------------------------ *)
(** ** The cache flag, the cache key and [clear_cache] *)

Lemma fallback_value_not_hit : forall D el text ul fm,
  cache_hit (fallback_value D el text ul fm) = false.
Proof.
  intros. unfold fallback_value.
  destruct (legacy_detector D) as [legacy|]; [|reflexivity].
  destruct (fallback_detector D fm legacy); reflexivity.
Qed.

(** What one [analyze_text] call reports and counts, case by case. *)
Lemma analyze_text_flag : forall D el text ul uc fm mode s,
  exists r s', analyze_text D el text ul uc fm mode s = (Ok r, s') /\
    (cache_hit r = true <->
     uc = true /\ dict_get (cache_key text ul mode) (cache s) <> None) /\
    cache_hits s' = (if cache_hit r then S (cache_hits s) else cache_hits s) /\
    total_requests s' = S (total_requests s) /\
    (uc = false -> cache s' = cache s).
Proof.
  intros D el text ul uc fm mode s. rewrite analyze_text_eq.
  destruct uc.
  - destruct (dict_get (cache_key text ul mode) (cache s)) as [cached|] eqn:Hg.
    + eexists; eexists. split; [reflexivity|]. cbn.
      split; [split; [intros _; split; [reflexivity|discriminate]|reflexivity]|].
      split; [reflexivity|]. split; [reflexivity|discriminate].
    + destruct (integrated_detector D) as [[sp|e]|];
        eexists; eexists; (split; [reflexivity|]);
        [cbn|rewrite fallback_value_not_hit|rewrite fallback_value_not_hit];
        (split; [split; [discriminate|intros [_ H]; congruence]|]);
        (split; [reflexivity|]); (split; [reflexivity|discriminate]).
  - destruct (integrated_detector D) as [[sp|e]|];
      eexists; eexists; (split; [reflexivity|]);
      [cbn|rewrite fallback_value_not_hit|rewrite fallback_value_not_hit];
      (split; [split; [discriminate|intros [H _]; discriminate]|]);
      (split; [reflexivity|]); (split; [reflexivity|intros _; reflexivity]).
Qed.

(** [analyze_text] reports [cache_hit = True] exactly when caching is on and
    the key is already in the cache; [cache_hits] grows by one exactly on
    such a hit, [total_requests] grows by one on every call, and with
    [use_cache = False] the cache is neither read nor written. *)
Theorem analyze_text_cache_hit_flag : forall D el text ul uc fm mode s,
  exists r s', analyze_text D el text ul uc fm mode s = (Ok r, s') /\
    (cache_hit r = true <->
     uc = true /\ dict_get (cache_key text ul mode) (cache s) <> None) /\
    cache_hits s' = (if cache_hit r then S (cache_hits s) else cache_hits s) /\
    total_requests s' = S (total_requests s) /\
    (uc = false -> cache s' = cache s).
Proof. exact analyze_text_flag. Qed.

Lemma append_assoc_str : forall a b c : string, ((a ++ b) ++ c)%string = (a ++ (b ++ c))%string.
Proof.
  induction a as [|x a IH]; intros b c; [reflexivity|]. simpl. rewrite IH. reflexivity.
Qed.

(** The cache key sees the text and the user languages only through
    [text + ':' + ','.join(user_languages or [])]: two calls whose texts
    and user-language lists give the same such string (a language
    containing a comma against two languages, [None] against [[]], a text
    ending in ':' against a language ':') share one cache entry, and the
    second call returns the result stored for the first, marked as a hit. *)
Theorem cache_key_collision : forall t1 t2 u1 u2 mode,
  (t1 ++ ":" ++ PyStr.join "," (getattr u1 []))%string =
  (t2 ++ ":" ++ PyStr.join "," (getattr u2 []))%string ->
  cache_key t1 u1 mode = cache_key t2 u2 mode /\
  (forall D el fm s r,
     dict_get (cache_key t1 u1 mode) (cache s) = Some r ->
     analyze_text D el t2 u2 true fm mode s =
       (Ok (mark_cache_hit r el),
        mkService (dict_set (cache_key t1 u1 mode) (mark_cache_hit r el) (cache s))
          (S (cache_hits s)) (S (total_requests s)))).
Proof.
  intros t1 t2 u1 u2 mode H.
  assert (Hk : cache_key t1 u1 mode = cache_key t2 u2 mode).
  { unfold cache_key.
    assert (E : forall t j, (t ++ ":" ++ j ++ ":" ++ mode)%string =
                            ((t ++ ":" ++ j) ++ ":" ++ mode)%string)
      by (intros; rewrite !append_assoc_str; reflexivity).
    rewrite (E t1), (E t2), H. reflexivity. }
  split; [exact Hk|].
  intros D el fm s r Hg. rewrite analyze_text_eq, <- Hk. cbv zeta. rewrite Hg.
  reflexivity.
Qed.

(** After [clear_cache] the cache is empty and the statistics report size 0
    with both counters kept; the next [analyze_text] call, whatever its
    inputs, is a miss. *)
Theorem clear_cache_then_miss : forall (available : bool) (s : Service),
  let s' := snd (clear_cache s) in
  fst (clear_cache s) = Ok tt /\
  cache s' = [] /\
  st_cache_size (get_cache_stats available s') = 0 /\
  st_total_requests (get_cache_stats available s') = total_requests s /\
  st_cache_hits (get_cache_stats available s') = cache_hits s /\
  (forall D el text ul uc fm mode, exists r s'',
     analyze_text D el text ul uc fm mode s' = (Ok r, s'') /\
     cache_hit r = false /\ cache_hits s'' = cache_hits s).
Proof.
  intros available [c h t] s'. subst s'.
  split; [reflexivity|]. split; [reflexivity|]. split; [reflexivity|].
  split; [reflexivity|]. split; [reflexivity|].
  intros D el text ul uc fm mode.
  destruct (analyze_text_flag D el text ul uc fm mode (snd (clear_cache (mkService c h t))))
    as [r [s'' [Ha [Hf [Hh _]]]]].
  exists r, s''. split; [exact Ha|].
  destruct (cache_hit r) eqn:Hr.
  - exfalso. destruct (proj1 Hf eq_refl) as [_ Hn]. apply Hn. reflexivity.
  - split; [reflexivity|exact Hh].
Qed.

(** For a text with no words ([text.split() == []]), the primary and the
    legacy conversions return no token and no phrase, while the mock result
    has no token but one phrase with no words, [startIndex] 0 and
    [endIndex] -1. *)
Theorem empty_text_results : forall text,
  PyStr.split text = [] ->
  (forall sp opt ul el mode,
     tokens (convert_v2_1_2_result sp opt text ul el mode) = [] /\
     phrases (convert_v2_1_2_result sp opt text ul el mode) = []) /\
  (forall sp ul el,
     tokens (convert_legacy_result sp text ul el) = [] /\
     phrases (convert_legacy_result sp text ul el) = []) /\
  (forall ul el err,
     let mock_lang := match ul with Some (u :: _) => u | _ => "english" end in
     tokens (get_mock_result text ul el err) = [] /\
     phrases (get_mock_result text ul el err) =
       [mkPhrase [] text mock_lang (85 # 100) 0 (-1) (PyBool true)]).
Proof.
  intros text H. split; [|split].
  - intros. unfold convert_v2_1_2_result; cbn [tokens phrases]. rewrite H.
    destruct (_ && _); split; reflexivity.
  - intros. unfold convert_legacy_result; cbn [tokens phrases]. rewrite H.
    destruct (_ && _); split; reflexivity.
  - intros. unfold get_mock_result; cbn [tokens phrases]. rewrite H.
    split; reflexivity.
Qed.

Lemma empty_text_results_witness :
  PyStr.split "   " = [] /\
  tokens (get_mock_result "   " None 0 None) = [] /\
  phrases (get_mock_result "   " None 0 None) =
    [mkPhrase [] "   " "english" (85 # 100) 0 (-1) (PyBool true)].
Proof.
  assert (H : PyStr.split "   " = []) by (vm_compute; reflexivity).
  split; [exact H|].
  exact (proj2 (proj2 (empty_text_results "   " H)) None 0%Q None).
Defined.

(** Two user-language lists that the cache key cannot tell apart. *)
Definition collision_state : Service :=
  snd (analyze_text primary_detectors 0 "hola" (Some ["en,es"]) true false
         "balanced" init_service).

Definition collision_result : SwitchPrintResult :=
  convert_v2_1_2_result sample_integrated None "hola" (Some ["en,es"]) 0 "balanced".

Lemma cache_key_collision_witness :
  ("hola" ++ ":" ++ PyStr.join "," (getattr (Some ["en,es"]) []))%string =
  ("hola" ++ ":" ++ PyStr.join "," (getattr (Some ["en"; "es"]) []))%string /\
  dict_get (cache_key "hola" (Some ["en,es"]) "balanced") (cache collision_state)
    = Some collision_result /\
  analyze_text no_detectors 1 "hola" (Some ["en"; "es"]) true false "balanced"
    collision_state =
    (Ok (mark_cache_hit collision_result 1),
     mkService (dict_set (cache_key "hola" (Some ["en,es"]) "balanced")
                  (mark_cache_hit collision_result 1) (cache collision_state))
       (S (cache_hits collision_state)) (S (total_requests collision_state))).
Proof.
  assert (H : ("hola" ++ ":" ++ PyStr.join "," (getattr (Some ["en,es"]) []))%string =
              ("hola" ++ ":" ++ PyStr.join "," (getattr (Some ["en"; "es"]) []))%string)
    by reflexivity.
  assert (Hg : dict_get (cache_key "hola" (Some ["en,es"]) "balanced")
                 (cache collision_state) = Some collision_result)
    by (vm_compute; reflexivity).
  split; [exact H|]. split; [exact Hg|].
  exact (proj2 (cache_key_collision "hola" "hola" (Some ["en,es"]) (Some ["en"; "es"])
                  "balanced" H) no_detectors 1%Q false collision_state collision_result Hg).
Defined.

(* ------------------------------------------------------------------ *)
(** ** Where the phrases start *)

(** The start indices of all phrases but the first: the positions where a
    token's language differs from the language of the token before it. *)
Fixpoint boundaries (i : nat) (prev : string) (rest : list Token) : list Z :=
  match rest with
  | [] => []
  | t :: r =>
      if String.eqb (lang t) prev then boundaries (S i) prev r
      else Z.of_nat i :: boundaries (S i) (lang t) r
  end.

Lemma group_loop_starts : forall conf ul rest i ws l st,
  map startIndex (group_loop conf ul i rest ws l st) = st :: boundaries i l rest.
Proof.
  intros conf ul rest. induction rest as [|t rest IH]; intros i ws l st;
    [reflexivity|].
  simpl. destruct (String.eqb (lang t) l); simpl; rewrite IH; reflexivity.
Qed.

Lemma nth_NoDup_neq : forall (dl : list string) a b,
  NoDup dl -> a < length dl -> b < length dl -> a <> b ->
  String.eqb (nth a dl "") (nth b dl "") = false.
Proof.
  intros dl a b Hnd Ha Hb Hab. apply String.eqb_neq. intros E.
  apply Hab. exact (proj1 (NoDup_nth dl "") Hnd a b Ha Hb E).
Qed.

Lemma cyclic_boundaries : forall dl sps conf ws i idx,
  NoDup dl -> 1 < length dl -> sps <> [] -> idx < length dl ->
  boundaries i (nth idx dl "") (assign_cyclic dl sps conf i idx ws) =
  map Z.of_nat (filter (fun j => mem_Z (Z.of_nat j) sps) (seq i (length ws))).
Proof.
  intros dl sps conf ws. induction ws as [|w ws IH]; intros i idx Hnd Hn Hs Hidx;
    [reflexivity|].
  assert (Hsps : negb (is_nil sps) = true) by (destruct sps; [congruence|reflexivity]).
  cbn [assign_cyclic length]. rewrite Hsps, andb_true_l.
  assert (Hl : forall k, (match dl with [] => "unknown" | _ => nth k dl "" end)
                         = nth k dl "")
    by (intros k; destruct dl; [simpl in Hn; lia|reflexivity]).
  rewrite Hl. cbn [boundaries lang seq filter].
  destruct (mem_Z (Z.of_nat i) sps) eqn:Hm.
  - assert (Hne : (idx + 1) mod length dl <> idx).
    { destruct (Nat.ltb_spec (idx + 1) (length dl)).
      - rewrite Nat.mod_small by lia. lia.
      - replace (idx + 1) with (length dl) by lia. rewrite Nat.Div0.mod_same. lia. }
    assert (Hlt : (idx + 1) mod length dl < length dl) by (apply Nat.mod_upper_bound; lia).
    rewrite (nth_NoDup_neq dl _ _ Hnd Hlt Hidx Hne). cbn [map].
    rewrite IH by assumption. reflexivity.
  - rewrite String.eqb_refl. apply IH; assumption.
Qed.

Lemma clamp_boundaries : forall dl sps conf ws i idx,
  NoDup dl -> dl <> [] -> idx <= length dl - 1 ->
  boundaries i (nth idx dl "") (assign_clamp dl sps conf i idx ws) =
  map Z.of_nat (firstn (length dl - 1 - idx)
                  (filter (fun j => mem_Z (Z.of_nat j) sps) (seq i (length ws)))).
Proof.
  intros dl sps conf ws. induction ws as [|w ws IH]; intros i idx Hnd Hdl Hidx.
  - simpl. rewrite firstn_nil. reflexivity.
  - assert (Hn : length dl <> 0) by (destruct dl; simpl; congruence).
    cbn [assign_clamp length seq filter].
    destruct (mem_Z (Z.of_nat i) sps) eqn:Hm; cbn [andb].
    + destruct (Z.ltb_spec (Z.of_nat idx) (Z.of_nat (length dl) - 1)) as [Hlt|Hge].
      * assert (Hs : (S idx <? length dl) = true) by (apply Nat.ltb_lt; lia).
        rewrite Hs. cbn [boundaries lang].
        rewrite (nth_NoDup_neq dl (S idx) idx Hnd) by lia.
        rewrite IH by (assumption || lia).
        replace (length dl - 1 - idx) with (S (length dl - 1 - S idx)) by lia.
        reflexivity.
      * assert (Hs : (idx <? length dl) = true) by (apply Nat.ltb_lt; lia).
        rewrite Hs. cbn [boundaries lang]. rewrite String.eqb_refl.
        rewrite IH by assumption.
        replace (length dl - 1 - idx) with 0 by lia. reflexivity.
    + assert (Hs : (idx <? length dl) = true) by (apply Nat.ltb_lt; lia).
      rewrite Hs. cbn [boundaries lang]. rewrite String.eqb_refl.
      apply IH; assumption.
Qed.

(** When the detected languages are distinct and there are several, with
    switch points supplied, the primary conversion starts a phrase at word
    0 and at each supplied switch index among words 1 .. len(words) - 1,
    and nowhere else: a switch point at 0, past the last word or repeated
    starts no extra phrase. *)
Theorem primary_phrase_starts : forall sp opt text ul el mode,
  let dl := getattr (ir_detected_languages sp) ["unknown"] in
  let sps := getattr (ir_switch_points sp) [] in
  let words := PyStr.split text in
  NoDup dl -> 1 < length dl -> sps <> [] ->
  map startIndex (phrases (convert_v2_1_2_result sp opt text ul el mode)) =
  match words with
  | [] => []
  | _ :: ws => 0%Z :: map Z.of_nat
                 (filter (fun j => mem_Z (Z.of_nat j) sps) (seq 1 (length ws)))
  end.
Proof.
  intros sp opt text ul el mode dl sps words Hnd Hn Hs.
  unfold convert_v2_1_2_result. cbv zeta. cbn [phrases]. fold dl sps words.
  assert (Hc : ((1 <? length dl) && negb (is_nil sps)) = true).
  { apply andb_true_intro. split; [apply Nat.ltb_lt; exact Hn|].
    destruct sps; [congruence|reflexivity]. }
  rewrite Hc. clearbody dl sps words.
  destruct words as [|w ws]; [reflexivity|].
  cbn [assign_cyclic group_phrases].
  assert (Hsps : negb (is_nil sps) = true) by (destruct sps; [congruence|reflexivity]).
  rewrite Hsps, andb_true_l.
  set (idx0 := if mem_Z (Z.of_nat 0) sps then (0 + 1) mod length dl else 0).
  assert (Hl : (match dl with [] => "unknown" | _ => nth idx0 dl "" end)
               = nth idx0 dl "") by (destruct dl; [simpl in Hn; lia|reflexivity]).
  rewrite Hl, group_loop_starts. cbn [lang]. f_equal.
  apply cyclic_boundaries; try assumption.
  subst idx0. destruct (mem_Z _ _); [apply Nat.mod_upper_bound|]; lia.
Qed.

Lemma primary_phrase_starts_witness :
  let sp := mkIntegratedResult None None None None None
              (Some ["english"; "spanish"]) (Some [0; 2; 2; 9]%Z) in
  NoDup ["english"; "spanish"] /\ 1 < length ["english"; "spanish"] /\
  [0; 2; 2; 9]%Z <> [] /\
  map startIndex (phrases (convert_v2_1_2_result sp None "a b c d" None 0 "balanced"))
    = [0; 2]%Z.
Proof.
  intros sp.
  assert (H1 : NoDup ["english"; "spanish"]).
  { constructor; [simpl; intros [H|[]]; discriminate|].
    constructor; [simpl; tauto|constructor]. }
  assert (H2 : 1 < length ["english"; "spanish"]) by (simpl; lia).
  assert (H3 : [0; 2; 2; 9]%Z <> []) by discriminate.
  split; [exact H1|]. split; [exact H2|]. split; [exact H3|].
  rewrite (primary_phrase_starts sp None "a b c d" None 0%Q "balanced" H1 H2 H3).
  vm_compute. reflexivity.
Defined.

(** With distinct detected languages, the legacy conversion starts a phrase
    at word 0 and at the supplied switch indices among words
    1 .. len(words) - 1 only as long as the language index can still
    advance: at most [len(detected) - 1] advances in all, a switch at
    word 0 using one of them; later switch indices start no phrase. *)
Theorem legacy_phrase_starts : forall sp text ul el,
  let dl := getattr (lr_detected_languages sp) ["unknown"] in
  let sps := match lr_switch_points sp with
             | Some l => extract_switch_points l
             | None => []
             end in
  let words := PyStr.split text in
  NoDup dl -> 1 < length dl -> sps <> [] ->
  map startIndex (phrases (convert_legacy_result sp text ul el)) =
  match words with
  | [] => []
  | _ :: ws =>
      0%Z :: map Z.of_nat
        (firstn (length dl - 1 - bit (mem_Z 0 sps))
           (filter (fun j => mem_Z (Z.of_nat j) sps) (seq 1 (length ws))))
  end.
Proof.
  intros sp text ul el dl sps words Hnd Hn Hs.
  unfold convert_legacy_result. cbv zeta. cbn [phrases]. fold dl sps words.
  assert (Hc : ((1 <? length dl) && negb (is_nil sps)) = true).
  { apply andb_true_intro. split; [apply Nat.ltb_lt; exact Hn|].
    destruct sps; [congruence|reflexivity]. }
  rewrite Hc. clearbody dl sps words.
  destruct words as [|w ws]; [reflexivity|].
  cbn [assign_clamp group_phrases].
  assert (Hdl : dl <> []) by (destruct dl; [simpl in Hn; lia|discriminate]).
  assert (Hz : (Z.of_nat 0 <? Z.of_nat (length dl) - 1)%Z = true) by (apply Z.ltb_lt; lia).
  rewrite Hz, andb_true_r.
  change (Z.of_nat 0) with 0%Z.
  destruct (mem_Z 0 sps) eqn:Hm; cbn [bit].
  - assert (H1 : (1 <? length dl) = true) by (apply Nat.ltb_lt; lia).
    rewrite H1, group_loop_starts. cbn [lang]. f_equal.
    apply clamp_boundaries; try assumption. lia.
  - assert (H0 : (0 <? length dl) = true) by (apply Nat.ltb_lt; lia).
    rewrite H0, group_loop_starts. cbn [lang]. f_equal.
    rewrite (clamp_boundaries dl sps _ ws 1 0 Hnd Hdl) by lia.
    rewrite Nat.sub_0_r. reflexivity.
Qed.

Lemma legacy_phrase_starts_witness :
  let sp := mkLegacyResult (Some ["english"; "spanish"]) None
              (Some [LSPInt 1; LSPInt 3]) in
  NoDup ["english"; "spanish"] /\ 1 < length ["english"; "spanish"] /\
  [1; 3]%Z <> [] /\
  map startIndex (phrases (convert_legacy_result sp "a b c d" None 0)) = [0; 1]%Z.
Proof.
  intros sp.
  assert (H1 : NoDup ["english"; "spanish"]).
  { constructor; [simpl; intros [H|[]]; discriminate|].
    constructor; [simpl; tauto|constructor]. }
  assert (H2 : 1 < length ["english"; "spanish"]) by (simpl; lia).
  assert (H3 : [1; 3]%Z <> []) by discriminate.
  split; [exact H1|]. split; [exact H2|]. split; [exact H3|].
  rewrite (legacy_phrase_starts sp "a b c d" None 0%Q H1 H2 H3).
  vm_compute. reflexivity.
Defined.

(* ------------------------------------------------------------------ *)
(** ** [str.split()] through the worker's text cleaning *)

Module SplitFacts.

Import PyStr.

Fixpoint all_space (s : string) : bool :=
  match s with
  | EmptyString => true
  | String c s' => is_space c && all_space s'
  end.

Fixpoint map_str (f : ascii -> ascii) (s : string) : string :=
  match s with
  | EmptyString => EmptyString
  | String c s' => String (f c) (map_str f s')
  end.

Lemma split_aux_nonempty : forall s cur, cur <> ""%string -> split_aux s cur <> [].
Proof.
  induction s as [|c s IH]; intros cur H; simpl.
  - destruct (String.eqb cur "") eqn:E; [apply String.eqb_eq in E; contradiction|discriminate].
  - destruct (is_space c).
    + destruct (String.eqb cur "") eqn:E; [apply String.eqb_eq in E; contradiction|discriminate].
    + apply IH. destruct cur; discriminate.
Qed.

Lemma split_nil_lstrip : forall s, split_aux s "" = [] -> lstrip s = ""%string.
Proof.
  induction s as [|c s IH]; intros H; [reflexivity|].
  simpl in *. destruct (is_space c); [apply IH, H|].
  exfalso. exact (split_aux_nonempty s (String c "") ltac:(discriminate) H).
Qed.

Lemma split_aux_map : forall f,
  (forall c, is_space (f c) = is_space c) ->
  (forall c, is_space c = false -> f c = c) ->
  forall s cur, split_aux (map_str f s) cur = split_aux s cur.
Proof.
  intros f Hs Hf. induction s as [|c s IH]; intros cur; [reflexivity|].
  simpl. rewrite Hs. destruct (is_space c) eqn:E; [rewrite IH; reflexivity|].
  rewrite (Hf c E). apply IH.
Qed.

Lemma substring_full : forall s, substring 0 (String.length s) s = s.
Proof. induction s as [|c s IH]; [reflexivity|]. simpl. rewrite IH. reflexivity. Qed.

Lemma replace1_map : forall a s,
  replace (String a "") " " s =
  map_str (fun c => if ascii_dec a c then " "%char else c) s.
Proof.
  intros a s.
  assert (H : forall fuel s, String.length s < fuel ->
            replace_fuel fuel (String a "") " " s =
            map_str (fun c => if ascii_dec a c then " "%char else c) s).
  { intros fuel. induction fuel as [|f IH]; intros s' Hl; [simpl in Hl; lia|].
    destruct s' as [|c s']; [reflexivity|].
    cbn [replace_fuel]. simpl String.prefix.
    destruct (ascii_dec a c).
    - simpl. rewrite Nat.sub_0_r, substring_full, IH by (simpl in Hl; lia).
      subst c. destruct (ascii_dec a a) as [_|n]; [|congruence].
      destruct s'; reflexivity.
    - simpl. rewrite IH by (simpl in Hl; lia).
      destruct (ascii_dec a c); [contradiction|reflexivity]. }
  unfold replace. rewrite (H (S (String.length s)) s) by lia. reflexivity.
Qed.

Lemma split_replace_space : forall a s,
  is_space a = true -> split (replace (String a "") " " s) = split s.
Proof.
  intros a s Ha. rewrite replace1_map. unfold split. apply split_aux_map.
  - intros c. destruct (ascii_dec a c) as [<-|]; [rewrite Ha; reflexivity|reflexivity].
  - intros c Hc. destruct (ascii_dec a c) as [<-|]; [congruence|reflexivity].
Qed.

Lemma split_lstrip : forall s, split_aux (lstrip s) "" = split_aux s "".
Proof.
  induction s as [|c s IH]; [reflexivity|]. simpl.
  destruct (is_space c) eqn:E; [rewrite IH; reflexivity|simpl; rewrite E; reflexivity].
Qed.

Lemma split_trailing_nil : forall v, all_space v = true -> split_aux v "" = [].
Proof.
  induction v as [|c v IH]; intros H; [reflexivity|]. simpl in *.
  apply andb_prop in H as [H1 H2]. rewrite H1. apply IH, H2.
Qed.

Lemma split_trailing : forall u v cur, all_space v = true ->
  split_aux (u ++ v) cur = split_aux u cur.
Proof.
  induction u as [|c u IH]; intros v cur Hv; simpl.
  - destruct v as [|c v]; [reflexivity|]. simpl in *.
    apply andb_prop in Hv as [H1 H2]. rewrite H1, split_trailing_nil by exact H2.
    apply app_nil_r.
  - destruct (is_space c); rewrite IH by exact Hv; reflexivity.
Qed.

Lemma rev_str_acc : forall s acc, rev_str s acc = (rev_str s "" ++ acc)%string.
Proof.
  induction s as [|c s IH]; intros acc; [reflexivity|]. simpl.
  rewrite IH, (IH (String c "")), append_assoc_str. reflexivity.
Qed.

Lemma rev_str_app : forall a b acc, rev_str (a ++ b) acc = rev_str b (rev_str a acc).
Proof. induction a as [|c a IH]; intros b acc; [reflexivity|]. simpl. apply IH. Qed.

Lemma rev_str_involutive : forall s, rev_str (rev_str s "") "" = s.
Proof.
  induction s as [|c s IH]; [reflexivity|]. simpl.
  rewrite (rev_str_acc s (String c "")), rev_str_app, IH. reflexivity.
Qed.

Lemma all_space_rev : forall s acc, all_space s = true -> all_space acc = true ->
  all_space (rev_str s acc) = true.
Proof.
  induction s as [|c s IH]; intros acc H Ha; [exact Ha|]. simpl in *.
  apply andb_prop in H as [H1 H2]. apply IH; [exact H2|]. simpl. rewrite H1, Ha. reflexivity.
Qed.

Lemma lstrip_decomp : forall s, exists sp, s = (sp ++ lstrip s)%string /\ all_space sp = true.
Proof.
  induction s as [|c s IH]; [exists ""%string; split; reflexivity|].
  simpl. destruct (is_space c) eqn:E.
  - destruct IH as [sp [Hs Ha]]. exists (String c sp). split.
    + simpl. rewrite <- Hs. reflexivity.
    + simpl. rewrite E, Ha. reflexivity.
  - exists ""%string. split; reflexivity.
Qed.

Lemma split_rstrip : forall t, split (rev_str (lstrip (rev_str t "")) "") = split t.
Proof.
  intros t. destruct (lstrip_decomp (rev_str t "")) as [sp [Hs Ha]].
  assert (Ht : t = (rev_str (lstrip (rev_str t "")) "" ++ rev_str sp "")%string).
  { rewrite <- rev_str_acc, <- rev_str_app, <- Hs, rev_str_involutive. reflexivity. }
  unfold split.
  transitivity (split_aux (rev_str (lstrip (rev_str t "")) "" ++ rev_str sp "") "").
  - symmetry. apply split_trailing, all_space_rev; [exact Ha|reflexivity].
  - rewrite <- Ht. reflexivity.
Qed.

Lemma split_strip : forall s, split (strip s) = split s.
Proof.
  intros s. unfold strip. rewrite split_rstrip. apply split_lstrip.
Qed.

Lemma split_nil_strip : forall s, split s = [] -> strip s = ""%string.
Proof.
  intros s H. unfold strip. rewrite (split_nil_lstrip s H). reflexivity.
Qed.

End SplitFacts.

Lemma clean_split : forall text, PyStr.split (Worker.clean text) = PyStr.split text.
Proof.
  intros text. unfold Worker.clean.
  rewrite SplitFacts.split_strip, !SplitFacts.split_replace_space by reflexivity.
  reflexivity.
Qed.

Lemma clean_empty_iff : forall text,
  Worker.clean text = ""%string <-> PyStr.split text = [].
Proof.
  intros text. split.
  - intros H. rewrite <- clean_split, H. reflexivity.
  - intros H. unfold Worker.clean. apply SplitFacts.split_nil_strip.
    rewrite !SplitFacts.split_replace_space by reflexivity. exact H.
Qed.

(** With a model loaded, [detect_language] answers "Empty text provided"
    exactly when the text has no words ([text.split() == []]: the newline
    and carriage-return replacement and the strip change no word);
    otherwise it returns one token per word of [text.split()], in order,
    and reports [tokensPerSecond = 1000 * len(words)]. *)
Theorem worker_tokens_are_words : forall predict text ul,
  (Worker.detect_language (Some predict) text ul = Worker.RError "Empty text provided"
   <-> PyStr.split text = []) /\
  match Worker.detect_language (Some predict) text ul with
  | Worker.RDetection d =>
      map Worker.wword d.(Worker.d_tokens) = PyStr.split text /\
      d.(Worker.d_tokensPerSecond) = (Z.of_nat (length (PyStr.split text)) * 1000)%Z
  | Worker.RError m => m = "Empty text provided" /\ PyStr.split text = []
  end.
Proof.
  intros predict text ul. unfold Worker.detect_language.
  destruct (String.eqb (Worker.clean text) "") eqn:E.
  - apply String.eqb_eq, clean_empty_iff in E.
    split; [split; intros; [exact E|reflexivity]|split; [reflexivity|exact E]].
  - apply String.eqb_neq in E. split.
    + split; [discriminate|intros H; apply clean_empty_iff in H; contradiction].
    + cbn [Worker.d_tokens Worker.d_tokensPerSecond].
      rewrite map_map, length_map, clean_split. cbn [Worker.wword Worker.word_token].
      split; [apply map_id|reflexivity].
Qed.

(* ------------------------------------------------------------------ *)
(** ** The worker's language tables *)

Definition table_round_trip (nc : string * string) : bool :=
  let '(name, code) := nc in
  String.eqb code "cnr" ||
  (String.eqb (Worker.normalize_language name) code &&
   String.eqb (Worker.normalize_language code) code &&
   String.eqb (Worker.normalize_language (Worker.code_to_name code)) code).

Lemma table_round_trip_all : forallb table_round_trip Worker.languages_map = true.
Proof. vm_compute. reflexivity. Qed.

(** For every language of [_create_language_mapping] but Montenegrin, the
    name, the code and the display name [_code_to_name] gives for the code
    all normalise to that code, so a user language may be given in any of
    the three forms; Montenegrin's code 'cnr' is cut to 'cn' by the
    two-letter fallback and its display name is 'CNR'. *)
Theorem normalize_language_round_trip :
  (forall name code, In (name, code) Worker.languages_map -> code <> "cnr"%string ->
     Worker.normalize_language name = code /\
     Worker.normalize_language code = code /\
     Worker.normalize_language (Worker.code_to_name code) = code) /\
  Worker.normalize_language "montenegrin" = "cnr"%string /\
  Worker.normalize_language "cnr" = "cn"%string /\
  Worker.code_to_name "cnr" = "CNR"%string.
Proof.
  split; [|vm_compute; repeat split; reflexivity].
  intros name code Hin Hc.
  pose proof (proj1 (forallb_forall _ _) table_round_trip_all _ Hin) as H.
  cbn [table_round_trip] in H.
  apply String.eqb_neq in Hc. rewrite Hc in H. cbn [orb] in H.
  apply andb_prop in H as [H H3]. apply andb_prop in H as [H1 H2].
  apply String.eqb_eq in H1, H2, H3. auto.
Qed.

Lemma normalize_language_round_trip_witness :
  In ("spanish", "es") Worker.languages_map /\ "es" <> "cnr" /\
  Worker.normalize_language "spanish" = "es" /\
  Worker.normalize_language "es" = "es" /\
  Worker.normalize_language (Worker.code_to_name "es") = "es".
Proof.
  assert (Hin : In ("spanish", "es") Worker.languages_map) by (simpl; tauto).
  assert (Hc : "es" <> "cnr") by discriminate.
  split; [exact Hin|]. split; [exact Hc|].
  exact (proj1 normalize_language_round_trip "spanish" "es" Hin Hc).
Defined.

(* ------------------------------------------------------------------ *)
(** ** The [/analyze] route of the Flask app *)

Module Http.

Import WorkerLoop.

(** [SWITCHPRINT_VERSION] as set when the module is imported. *)
Definition switchprint_version (available : bool) : string :=
  if available then SWITCHPRINT_VERSION else "unavailable".

(** A route's answer: a JSON body with its status code, or the 200 answer
    [{'success': True, 'data': asdict(result) + {'v2_1_2_metadata': ...}}],
    whose metadata is computed from the result, the performance mode and
    the version. *)
Inductive HttpResponse :=
| HJson (status : Z) (body : JSON)
| HAnalysis (r : SwitchPrintResult) (mode : string) (version : string).

Definition bad_request (msg : string) : HttpResponse :=
  HJson 400 (JObj [("error", JStr msg)]).

(** The handler of [except Exception as e] (messages as CPython 3.11). *)
Definition server_error (available : bool) (msg : string) : HttpResponse :=
  HJson 500 (JObj [("success", JBool false); ("error", JStr msg);
                   ("version", JStr (switchprint_version available))]).

(** [str.find(sub) != -1] *)
Definition str_contains (sub s : string) : bool :=
  match String.index 0 sub s with Some _ => true | None => false end.

(** ['text' in data] *)
Definition contains_text (data : JSON) : outcome bool :=
  match data with
  | JObj kvs => Ok (existsb (fun kv => String.eqb (fst kv) "text") kvs)
  | JArr l => Ok (existsb (fun x => match x with
                                    | JStr s => String.eqb s "text"
                                    | _ => false
                                    end) l)
  | JStr s => Ok (str_contains "text" s)
  | other => Exn ("argument of type '" ++ type_name other ++ "' is not iterable")%string
  end.

Definition nat_str (n : nat) : string :=
  DecimalString.NilZero.string_of_uint (Nat.to_uint n).

(** The items of [user_languages] as [','.join] reads them: the first item
    that is not a [str] raises [TypeError]. *)
Fixpoint strings_of (i : nat) (l : list JSON) : outcome (list string) :=
  match l with
  | [] => Ok []
  | JStr s :: l' =>
      match strings_of (S i) l' with
      | Ok ss => Ok (s :: ss)
      | Exn e => Exn e
      end
  | x :: _ => Exn ("sequence item " ++ nat_str i ++ ": expected str instance, "
                   ++ type_name x ++ " found")%string
  end.

(** [user_languages] as [analyze_text] receives it: [None] for JSON null and
    the list for an array of strings; the [TypeError] that
    [','.join(user_languages or [])] raises for an array holding a non-string
    and for [true] or a non-zero number; [None] for the other shapes
    (a string, an object, [false], 0), whose later uses as a user-language
    list ([in] on a string or a dict, the falsy value itself as
    [isUserLanguage]) the service model does not cover. *)
Definition ul_arg (j : JSON) : option (outcome (option (list string))) :=
  match j with
  | JNull => Some (Ok None)
  | JArr l => Some (match strings_of 0 l with
                    | Ok ss => Ok (Some ss)
                    | Exn e => Exn e
                    end)
  | JBool true => Some (Exn "can only join an iterable")
  | JInt n => if Z.eqb n 0 then None else Some (Exn "can only join an iterable")
  | JFloat q => if Qeq_bool q 0 then None else Some (Exn "can only join an iterable")
  | _ => None
  end.

(** [if performance_mode not in ['fast', 'balanced', 'accurate']:
       performance_mode = 'balanced'] *)
Definition normalize_mode (j : JSON) : string :=
  match j with
  | JStr m => if existsb (String.eqb m) ["fast"; "balanced"; "accurate"]
              then m else "balanced"
  | _ => "balanced"
  end.

(** The handler of [POST /analyze]; [body] is the outcome of
    [request.get_json()] (JSON null standing for [None]); [None] when the
    request's [user_languages] has a shape [ul_arg] leaves out. *)
Definition analyze_route (D : Detectors) (available : bool) (elapsed : Q)
  (body : outcome JSON) : option (M HttpResponse) :=
  let fail := fun e => ret (server_error available e) in
  match body with
  | Exn e => Some (fail e)
  | Ok data =>
      if negb (json_truthy data) then Some (ret (bad_request "Text is required")) else
      match contains_text data with
      | Exn e => Some (fail e)
      | Ok false => Some (ret (bad_request "Text is required"))
      | Ok true =>
          match data with
          | JObj kvs =>
              let text := obj_get "text" kvs JNull in
              let user_languages := obj_get "user_languages" kvs (JArr []) in
              let use_cache := json_truthy (obj_get "use_cache" kvs (JBool true)) in
              let fast_mode := json_truthy (obj_get "fast_mode" kvs (JBool false)) in
              let mode := normalize_mode
                            (obj_get "performance_mode" kvs (JStr "balanced")) in
              match text with
              | JStr t =>
                  if String.eqb (PyStr.strip t) ""
                  then Some (ret (bad_request "Text cannot be empty"))
                  else
                    match ul_arg user_languages with
                    | None => None
                    | Some (Exn e) =>
                        (* [self.total_requests += 1], then the join raises *)
                        Some (catch (s <- get ;; put (counted s) ;;; lift (Exn e)) fail)
                    | Some (Ok ul) =>
                        Some (catch (r <- analyze_text D elapsed t ul use_cache
                                             fast_mode mode ;;
                                     ret (HAnalysis r mode
                                            (switchprint_version available)))
                                    fail)
                    end
              | other => Some (fail ("'" ++ type_name other
                                     ++ "' object has no attribute 'strip'")%string)
              end
          | JArr _ => Some (fail "list indices must be integers or slices, not str")
          | JStr _ => Some (fail "string indices must be integers, not 'str'")
          | other => Some (fail ("argument of type '" ++ type_name other
                                 ++ "' is not iterable")%string)
          end
      end
  end.

End Http.

Section RouteProps.

Import WorkerLoop Http.

Lemma in_keys_existsb : forall (kvs : list (string * JSON)) k,
  In k (map fst kvs) -> existsb (fun kv => String.eqb (fst kv) k) kvs = true.
Proof.
  intros kvs k H. apply existsb_exists. apply in_map_iff in H as [[k' v] [<- Hin]].
  exists (k', v). split; [exact Hin|apply String.eqb_refl].
Qed.

Lemma in_keys_nonempty : forall (kvs : list (string * JSON)) k,
  In k (map fst kvs) -> is_nil kvs = false.
Proof. intros [|kv kvs] k H; [destruct H|reflexivity]. Qed.

Lemma strip_nonempty : forall t, PyStr.split t <> [] -> String.eqb (PyStr.strip t) "" = false.
Proof.
  intros t H. apply String.eqb_neq. intros E. apply H.
  rewrite <- SplitFacts.split_strip, E. reflexivity.
Qed.

Lemma strings_of_exn : forall l i,
  Exists (fun x => forall str, x <> JStr str) l -> exists e, strings_of i l = Exn e.
Proof.
  intros l. induction l as [|x l IH]; intros i H; [inversion H|].
  inversion H as [? ? Hx|? ? Hl]; subst.
  - destruct x; try (eexists; reflexivity). exfalso. exact (Hx s eq_refl).
  - destruct x; try (eexists; reflexivity).
    destruct (IH (S i) Hl) as [e He]. exists e. simpl. rewrite He. reflexivity.
Qed.

Lemma normalize_mode_valid : forall j,
  In (normalize_mode j) ["fast"; "balanced"; "accurate"].
Proof.
  intros [| | | |m| |]; simpl; auto.
  destruct (String.eqb m "fast") eqn:E1; [apply String.eqb_eq in E1; subst; simpl; auto|].
  destruct (String.eqb m "balanced") eqn:E2; [apply String.eqb_eq in E2; subst; simpl; auto|].
  destruct (String.eqb m "accurate") eqn:E3; [apply String.eqb_eq in E3; subst; simpl; auto|].
  simpl; auto.
Qed.

End RouteProps.

(** [POST /analyze] rejects, without touching the service state (so with no
    request counted): a missing or falsy JSON body and an object without a
    [text] key with 400 "Text is required"; a [text] string with no words
    with 400 "Text cannot be empty"; a [text] that is not a string with a
    500 [{"success": false, ...}] answer. *)
Theorem analyze_route_rejections : forall D available elapsed s,
  (forall data, WorkerLoop.json_truthy data = false ->
     exists m, Http.analyze_route D available elapsed (Ok data) = Some m /\
       m s = (Ok (Http.bad_request "Text is required"), s)) /\
  (forall kvs, existsb (fun kv => String.eqb (fst kv) "text") kvs = false ->
     exists m, Http.analyze_route D available elapsed (Ok (WorkerLoop.JObj kvs)) = Some m /\
       m s = (Ok (Http.bad_request "Text is required"), s)) /\
  (forall kvs t, In "text" (map fst kvs) ->
     WorkerLoop.obj_get "text" kvs WorkerLoop.JNull = WorkerLoop.JStr t ->
     PyStr.split t = [] ->
     exists m, Http.analyze_route D available elapsed (Ok (WorkerLoop.JObj kvs)) = Some m /\
       m s = (Ok (Http.bad_request "Text cannot be empty"), s)) /\
  (forall kvs, In "text" (map fst kvs) ->
     (forall t, WorkerLoop.obj_get "text" kvs WorkerLoop.JNull <> WorkerLoop.JStr t) ->
     exists m msg, Http.analyze_route D available elapsed (Ok (WorkerLoop.JObj kvs)) = Some m /\
       m s = (Ok (Http.server_error available msg), s)).
Proof.
  intros D available elapsed s. split; [|split; [|split]].
  - intros data H. unfold Http.analyze_route. rewrite H.
    eexists. split; reflexivity.
  - intros kvs H. unfold Http.analyze_route. cbn [WorkerLoop.json_truthy Http.contains_text].
    rewrite H. destruct (is_nil kvs); eexists; split; reflexivity.
  - intros kvs t Hin Ht Hs. unfold Http.analyze_route.
    cbn [WorkerLoop.json_truthy Http.contains_text].
    rewrite (in_keys_nonempty kvs _ Hin), (in_keys_existsb kvs _ Hin). cbv zeta.
    rewrite Ht, (SplitFacts.split_nil_strip t Hs). eexists. split; reflexivity.
  - intros kvs Hin Ht. unfold Http.analyze_route.
    cbn [WorkerLoop.json_truthy Http.contains_text].
    rewrite (in_keys_nonempty kvs _ Hin), (in_keys_existsb kvs _ Hin). cbv zeta.
    destruct (WorkerLoop.obj_get "text" kvs WorkerLoop.JNull) eqn:E;
      try (eexists; eexists; split; reflexivity).
    exfalso. exact (Ht s0 eq_refl).
Qed.

(** A request whose [user_languages] array holds a non-string gets a 500
    [{"success": false, ...}] answer, yet it is counted: [analyze_text] has
    incremented [total_requests] before [','.join] raises; the cache and the
    hit counter are unchanged. *)
Theorem analyze_route_bad_user_languages : forall D available elapsed s kvs t l,
  In "text" (map fst kvs) ->
  WorkerLoop.obj_get "text" kvs WorkerLoop.JNull = WorkerLoop.JStr t ->
  PyStr.split t <> [] ->
  WorkerLoop.obj_get "user_languages" kvs (WorkerLoop.JArr []) = WorkerLoop.JArr l ->
  Exists (fun x => forall str, x <> WorkerLoop.JStr str) l ->
  exists m msg, Http.analyze_route D available elapsed (Ok (WorkerLoop.JObj kvs)) = Some m /\
    m s = (Ok (Http.server_error available msg), counted s).
Proof.
  intros D available elapsed s kvs t l Hin Ht Hs Hu Hl.
  destruct (strings_of_exn l 0 Hl) as [e He].
  unfold Http.analyze_route. cbn [WorkerLoop.json_truthy Http.contains_text].
  rewrite (in_keys_nonempty kvs _ Hin), (in_keys_existsb kvs _ Hin). cbv zeta.
  rewrite Ht, (strip_nonempty t Hs), Hu. cbn [Http.ul_arg]. rewrite He.
  eexists; eexists. split; reflexivity.
Qed.

(** A request with a non-blank [text] string and a usable [user_languages]
    makes exactly one [analyze_text] call, with [use_cache] defaulting to
    true, [fast_mode] to false and the performance mode replaced by
    'balanced' unless it is 'fast', 'balanced' or 'accurate'; the answer
    is that call's result with the mode used, in the state the call left. *)
Theorem analyze_route_accepts : forall D available elapsed s kvs t ul,
  In "text" (map fst kvs) ->
  WorkerLoop.obj_get "text" kvs WorkerLoop.JNull = WorkerLoop.JStr t ->
  PyStr.split t <> [] ->
  Http.ul_arg (WorkerLoop.obj_get "user_languages" kvs (WorkerLoop.JArr [])) = Some (Ok ul) ->
  let mode := Http.normalize_mode
                (WorkerLoop.obj_get "performance_mode" kvs (WorkerLoop.JStr "balanced")) in
  let uc := WorkerLoop.json_truthy (WorkerLoop.obj_get "use_cache" kvs (WorkerLoop.JBool true)) in
  let fm := WorkerLoop.json_truthy (WorkerLoop.obj_get "fast_mode" kvs (WorkerLoop.JBool false)) in
  In mode ["fast"; "balanced"; "accurate"] /\
  exists m r s', Http.analyze_route D available elapsed (Ok (WorkerLoop.JObj kvs)) = Some m /\
    analyze_text D elapsed t ul uc fm mode s = (Ok r, s') /\
    m s = (Ok (Http.HAnalysis r mode (Http.switchprint_version available)), s').
Proof.
  intros D available elapsed s kvs t ul Hin Ht Hs Hu mode uc fm.
  split; [apply normalize_mode_valid|].
  destruct (analyze_text_total D elapsed t ul uc fm mode s) as [r [s' Ha]].
  unfold Http.analyze_route. cbn [WorkerLoop.json_truthy Http.contains_text].
  rewrite (in_keys_nonempty kvs _ Hin), (in_keys_existsb kvs _ Hin). cbv zeta.
  rewrite Ht, (strip_nonempty t Hs), Hu.
  eexists; exists r, s'. split; [reflexivity|]. split; [exact Ha|].
  unfold catch, bind. fold mode uc fm. rewrite Ha. reflexivity.
Qed.

Definition route_request_ok : list (string * WorkerLoop.JSON) :=
  [("text", WorkerLoop.JStr "hola amigo"); ("user_languages", WorkerLoop.JArr [WorkerLoop.JStr "es"]);
   ("performance_mode", WorkerLoop.JStr "turbo")].

Definition route_request_bad_langs : list (string * WorkerLoop.JSON) :=
  [("text", WorkerLoop.JStr "hola amigo");
   ("user_languages", WorkerLoop.JArr [WorkerLoop.JStr "es"; WorkerLoop.JInt 3])].

Definition route_request_blank : list (string * WorkerLoop.JSON) :=
  [("text", WorkerLoop.JStr "  ")].

Definition route_request_list_text : list (string * WorkerLoop.JSON) :=
  [("text", WorkerLoop.JArr [WorkerLoop.JStr "hola"])].

Lemma analyze_route_rejections_witness :
  (exists m, Http.analyze_route primary_detectors true (1#2) (Ok WorkerLoop.JNull) = Some m /\
     m sample_state = (Ok (Http.bad_request "Text is required"), sample_state)) /\
  (exists m, Http.analyze_route primary_detectors true (1#2)
               (Ok (WorkerLoop.JObj [("txt", WorkerLoop.JStr "hola")])) = Some m /\
     m sample_state = (Ok (Http.bad_request "Text is required"), sample_state)) /\
  (exists m, Http.analyze_route primary_detectors true (1#2)
               (Ok (WorkerLoop.JObj route_request_blank)) = Some m /\
     m sample_state = (Ok (Http.bad_request "Text cannot be empty"), sample_state)) /\
  (exists m msg, Http.analyze_route primary_detectors true (1#2)
               (Ok (WorkerLoop.JObj route_request_list_text)) = Some m /\
     m sample_state = (Ok (Http.server_error true msg), sample_state)).
Proof.
  destruct (analyze_route_rejections primary_detectors true (1#2) sample_state)
    as [H1 [H2 [H3 H4]]].
  split; [apply H1; reflexivity|].
  split; [apply H2; reflexivity|].
  split; [apply (H3 route_request_blank "  "); [simpl; auto|reflexivity|reflexivity]|].
  apply H4; [simpl; auto|]. intros t; discriminate.
Defined.

Lemma analyze_route_bad_user_languages_witness :
  In "text" (map fst route_request_bad_langs) /\
  WorkerLoop.obj_get "text" route_request_bad_langs WorkerLoop.JNull = WorkerLoop.JStr "hola amigo" /\
  PyStr.split "hola amigo" <> [] /\
  WorkerLoop.obj_get "user_languages" route_request_bad_langs (WorkerLoop.JArr [])
    = WorkerLoop.JArr [WorkerLoop.JStr "es"; WorkerLoop.JInt 3] /\
  Exists (fun x => forall str, x <> WorkerLoop.JStr str)
    [WorkerLoop.JStr "es"; WorkerLoop.JInt 3] /\
  exists m msg, Http.analyze_route primary_detectors true (1#2)
                  (Ok (WorkerLoop.JObj route_request_bad_langs)) = Some m /\
    m sample_state = (Ok (Http.server_error true msg), counted sample_state).
Proof.
  assert (Hl : Exists (fun x => forall str, x <> WorkerLoop.JStr str)
                 [WorkerLoop.JStr "es"; WorkerLoop.JInt 3]).
  { apply Exists_cons_tl, Exists_cons_hd. intros str; discriminate. }
  assert (Hs : PyStr.split "hola amigo" <> []) by (vm_compute; discriminate).
  split; [simpl; auto|]. split; [reflexivity|]. split; [exact Hs|].
  split; [reflexivity|]. split; [exact Hl|].
  apply (analyze_route_bad_user_languages primary_detectors true (1#2) sample_state
           route_request_bad_langs "hola amigo" [WorkerLoop.JStr "es"; WorkerLoop.JInt 3]);
    [simpl; auto|reflexivity|exact Hs|reflexivity|exact Hl].
Defined.

Lemma analyze_route_accepts_witness :
  In "text" (map fst route_request_ok) /\
  WorkerLoop.obj_get "text" route_request_ok WorkerLoop.JNull = WorkerLoop.JStr "hola amigo" /\
  PyStr.split "hola amigo" <> [] /\
  Http.ul_arg (WorkerLoop.obj_get "user_languages" route_request_ok (WorkerLoop.JArr []))
    = Some (Ok (Some ["es"])) /\
  Http.normalize_mode (WorkerLoop.obj_get "performance_mode" route_request_ok
                         (WorkerLoop.JStr "balanced")) = "balanced" /\
  exists m r s', Http.analyze_route primary_detectors true (1#2)
                   (Ok (WorkerLoop.JObj route_request_ok)) = Some m /\
    analyze_text primary_detectors (1#2) "hola amigo" (Some ["es"]) true false "balanced"
      sample_state = (Ok r, s') /\
    m sample_state = (Ok (Http.HAnalysis r "balanced" (Http.switchprint_version true)), s').
Proof.
  assert (Hs : PyStr.split "hola amigo" <> []) by (vm_compute; discriminate).
  split; [simpl; auto|]. split; [reflexivity|]. split; [exact Hs|].
  split; [reflexivity|]. split; [reflexivity|].
  exact (proj2 (analyze_route_accepts primary_detectors true (1#2) sample_state
                  route_request_ok "hola amigo" (Some ["es"])
                  ltac:(simpl; auto) eq_refl Hs eq_refl)).
Defined.
